(** * Rate-limit middleware of glance (glance/api/middleware/ratelimit.py)

    A shallow embedding of [RateLimitMiddleware] and of the fakes its unit
    tests run it against (glance/tests/unit/test_ratelimit.py), followed by
    the properties of the admission algorithm.

    Conventions of the model.
    - Python [int] is [Z]; a Python [float] is the rational [Qc] it
    denotes. [float(x)] of a configured number and the ceiling test of
    [_get_sleep_time] are rounded to binary64 as the interpreter rounds
    them ([Py.fl], to nearest, ties to even; no overflow to infinity). The
    other float operations (the division by the rate, the product with the
    clock, the returned wait, the clock of the tests) are exact, and
    [float(n)] of an int is exact, as it is below [2 ^ 53]; only the
    conversion of the computed wait in the ceiling test rounds.
    - The interpreter state the code touches (the middleware object, the
    clock and the log) is threaded explicitly through a state monad with
    exceptions.
    - [time.time] and [eventlet.sleep] are the replacements installed by the
    unit tests ([mock_time], [mock_sleep]).
    - The memcache client is an interface ([MemcacheClient]); the only
    implementation in the repository is the tests' [FakeMemcache].

    The check of the property protection rules
    (glance/common/property_utils.py) is embedded in [PropertyRules]; the
    compiled regular expressions of the [re] module are a parameter. *)

From Stdlib Require Import ZArith QArith Qcanon Qround Qpower Lia Lqa.
From stdpp Require Import base option list strings gmap numbers.

Local Open Scope string_scope.
Local Open Scope Z_scope.

(** ** Python numbers *)

Module Py.

(** [float(n)] for an int [n]. *)
Definition float (n : Z) : Qc := Qc_of_Z n.

(** [floor (log2 x)] for a positive [x]. *)
Definition ilog2 (x : Q) : Z :=
  let k := Z.log2 (Qnum x) - Z.log2 (Z.pos (Qden x)) in
  if Qle_bool (2 ^ k) x then k else k - 1.

(** The integer nearest to [x], a tie going to the even one. *)
Definition round_half_even (x : Q) : Z :=
  let f := Qfloor x in
  match (x - inject_Z f ?= 1 # 2)%Q with
  | Lt => f
  | Gt => f + 1
  | Eq => if Z.even f then f else f + 1
  end.

(** The binary64 number nearest to a positive [x]: a significand of 53
    bits, subnormal below [2 ^ -1022]; the exponent has no upper bound. *)
Definition nearest_binary64 (x : Q) : Q :=
  let e := Z.max (ilog2 x - 52) (-1074) in
  (inject_Z (round_half_even (x / 2 ^ e)) * 2 ^ e)%Q.

(** The rounding of a float operation whose exact result is [x]; also
    [float(x)] of a number [x]. *)
Definition fl (x : Qc) : Qc :=
  match (x ?= 0)%Q with
  | Eq => Q2Qc 0
  | Gt => Q2Qc (Qred (nearest_binary64 x))
  | Lt => (- Q2Qc (Qred (nearest_binary64 (- x))))%Qc
  end.

(** [x * y] and [x - y] on floats, in binary64. *)
Definition mul (x y : Qc) : Qc := fl (x * y)%Qc.
Definition sub (x y : Qc) : Qc := fl (x - y)%Qc.

(** The literal [0.01]: the binary64 number nearest to a hundredth. *)
Definition one_percent : Qc := fl (Q2Qc (1 # 100)).

Definition leb (x y : Qc) : bool := bool_decide (x ≤ y)%Qc.
Definition ltb (x y : Qc) : bool := bool_decide (x < y)%Qc.

(** Truth value of a float: [0.0] is false, anything else is true. *)
Definition truthy (x : Qc) : bool := negb (bool_decide (x = 0%Qc)).

(** [int(round(x))]: Python 2 rounds to the nearest integer, halves away
    from zero. *)
Definition round (x : Qc) : Z :=
  if leb 0 x then Qfloor (x + Q2Qc (1 # 2))%Qc
  else - Qfloor (- x + Q2Qc (1 # 2))%Qc.

End Py.

(** ** Exceptions and log records *)

Inductive exn : Type :=
| MaxSleepTimeHitError (seconds : Qc)
| MemcacheConnectionError (msg : string)
| ValueError (action : option string)
| ZeroDivisionError
| AttributeError.

Inductive log_record : Type :=
| LogError (e : exn)
| LogErrorClientIsNone
| LogErrorNotInEnv (item_name : string)
| LogWarningSleep (need_to_sleep : Qc) (key : string)
| LogWarningReturning (status : Z) (key : string)
| LogWarningNoClient
| LogInfoNoToken
| LogDebugAction (action : string).

(** ** The memcache client *)

(** What the middleware calls on [self.memcache_client]. A call returns the
  value or the exception it raised, and the client after the call. The
  value passed to [set] is the decimal string of an int, which [incr] reads
  back with [int]: the model keeps the int. *)
Class MemcacheClient (C : Type) : Type := {
incr : C → string → Z → (exn + Z) * C;
set : C → string → Z → (exn + bool) * C;
decr : C → string → Z → (exn + Z) * C
}.

(** [FakeMemcache] of the unit tests. *)
Module Fake.

Record FakeMemcache : Type := {
  store : gmap string Z;
  error_on_incr : bool;
  init_incr_return_neg : bool
}.

Definition init : FakeMemcache :=
  {| store := ∅; error_on_incr := false; init_incr_return_neg := false |}.

Definition with_store (m : FakeMemcache) (s : gmap string Z) : FakeMemcache :=
  {| store := s; error_on_incr := error_on_incr m;
     init_incr_return_neg := init_incr_return_neg m |}.

Definition get (m : FakeMemcache) (key : string) : option Z := store m !! key.

Definition set (m : FakeMemcache) (key : string) (value : Z)
  : (exn + bool) * FakeMemcache :=
  (inr true, with_store m (<[key := value]> (store m))).

Definition incr (m : FakeMemcache) (key : string) (delta : Z)
  : (exn + Z) * FakeMemcache :=
  if error_on_incr m then (inl (MemcacheConnectionError "Memcache restarting"), m)
  else if init_incr_return_neg m then
    (inr (-10000000),
     {| store := store m; error_on_incr := error_on_incr m;
        init_incr_return_neg := false |})
  else
    let v := default 0 (store m !! key) + delta in
    let v' := if v <? 0 then 0 else v in
    (inr v', with_store m (<[key := v']> (store m))).

Definition decr (m : FakeMemcache) (key : string) (delta : Z)
  : (exn + Z) * FakeMemcache :=
  incr m key (- delta).

(** The int a bucket holds; [incr] reads an absent key as [0]. *)
Definition value (m : FakeMemcache) (key : string) : Z :=
  default 0 (store m !! key).

End Fake.

#[export] Instance FakeMemcache_client : MemcacheClient Fake.FakeMemcache :=
{| incr := Fake.incr; set := Fake.set; decr := Fake.decr |}.

(** ** The middleware object and the state of the process *)

(** The WSGI environment, as far as the middleware reads it: the request
    method, the [x-auth-token] header and the [glance.cache] entry. The
    middleware adopts the client of the first environment that has one and
    keeps it; the model hands the client over by value. *)
Record environ (C : Type) : Type := {
  REQUEST_METHOD : string;
  PATH_INFO : string;
  HTTP_X_AUTH_TOKEN : option string;
  glance_cache : option C
}.
Arguments REQUEST_METHOD {C} _.
Arguments PATH_INFO {C} _.
Arguments HTTP_X_AUTH_TOKEN {C} _.
Arguments glance_cache {C} _.

(** [webob.Request]: only [req.method] is read by the rate limiter. *)
Record Request : Type := { method : string }.

(** [webob.Response(status=..., body=...)]. *)
Record Response : Type := { status : string; body : string }.

(** What [__call__] hands back to the WSGI server: the wrapped
    application's own result, or the rate limiter's response. *)
Inductive wsgi_result : Type :=
| FromApp (app_iter : list string)
| FromRateLimit (resp : Response).

(** The [conf] dictionary given to the constructor; an absent key is [None]. *)
Record conf : Type := {
  conf_clock_accuracy : option Z;
  conf_rate_buffer_seconds : option Z;
  conf_max_sleep_time_seconds : option Qc;
  conf_log_sleep_time_seconds : option Qc;
  conf_account_ratelimit : option Qc;
  conf_image_list : option Qc;
  conf_image_download : option Qc;
  conf_image_register : option Qc;
  conf_image_upload : option Qc;
  conf_image_update : option Qc
}.

Definition empty_conf : conf :=
  {| conf_clock_accuracy := None; conf_rate_buffer_seconds := None;
     conf_max_sleep_time_seconds := None; conf_log_sleep_time_seconds := None;
     conf_account_ratelimit := None; conf_image_list := None;
     conf_image_download := None; conf_image_register := None;
     conf_image_upload := None; conf_image_update := None |}.

Record RateLimitMiddleware (C : Type) : Type := {
  app : environ C → list string;
  memcache_client : option C;
  clock_accuracy : Z;
  rate_buffer_seconds : Z;
  max_sleep_time_seconds : Qc;
  log_sleep_time_seconds : Qc;
  account_ratelimit : Qc;
  image_list : Qc;
  image_download : Qc;
  image_register : Qc;
  image_upload : Qc;
  image_update : Qc
}.
Arguments app {C} _.
Arguments memcache_client {C} _.
Arguments clock_accuracy {C} _.
Arguments rate_buffer_seconds {C} _.
Arguments max_sleep_time_seconds {C} _.
Arguments log_sleep_time_seconds {C} _.
Arguments account_ratelimit {C} _.
Arguments image_list {C} _.
Arguments image_download {C} _.
Arguments image_register {C} _.
Arguments image_upload {C} _.
Arguments image_update {C} _.

Definition HTTP_TOO_MANY_REQUESTS : Z := 429.

(** [RateLimitMiddleware.__init__]: every option has a default, and
    [float(...)] makes a binary64 number of the configured one. *)
Definition __init__ {C : Type} (the_app : environ C → list string) (c : conf)
  : RateLimitMiddleware C :=
  {| app := the_app;
     memcache_client := None;
     clock_accuracy := default 1000 (conf_clock_accuracy c);
     rate_buffer_seconds := default 5 (conf_rate_buffer_seconds c);
     max_sleep_time_seconds :=
       Py.fl (default (Py.float 60) (conf_max_sleep_time_seconds c));
     log_sleep_time_seconds :=
       Py.fl (default (Py.float 0) (conf_log_sleep_time_seconds c));
     account_ratelimit :=
       Py.fl (default (Py.float 0) (conf_account_ratelimit c));
     image_list := Py.fl (default (Py.float 0) (conf_image_list c));
     image_download := Py.fl (default (Py.float 0) (conf_image_download c));
     image_register := Py.fl (default (Py.float 0) (conf_image_register c));
     image_upload := Py.fl (default (Py.float 0) (conf_image_upload c));
     image_update := Py.fl (default (Py.float 0) (conf_image_update c)) |}.

(** [self.memcache_client = c]. *)
Definition set_memcache_client {C : Type} (s : RateLimitMiddleware C) (c : option C)
  : RateLimitMiddleware C :=
  {| app := app s;
     memcache_client := c;
     clock_accuracy := clock_accuracy s;
     rate_buffer_seconds := rate_buffer_seconds s;
     max_sleep_time_seconds := max_sleep_time_seconds s;
     log_sleep_time_seconds := log_sleep_time_seconds s;
     account_ratelimit := account_ratelimit s;
     image_list := image_list s;
     image_download := image_download s;
     image_register := image_register s;
     image_upload := image_upload s;
     image_update := image_update s |}.

(** [self.log_sleep_time_seconds = x], as the tests assign it. *)
Definition set_log_sleep_time_seconds {C : Type} (s : RateLimitMiddleware C) (x : Qc)
  : RateLimitMiddleware C :=
  {| app := app s;
     memcache_client := memcache_client s;
     clock_accuracy := clock_accuracy s;
     rate_buffer_seconds := rate_buffer_seconds s;
     max_sleep_time_seconds := max_sleep_time_seconds s;
     log_sleep_time_seconds := x;
     account_ratelimit := account_ratelimit s;
     image_list := image_list s;
     image_download := image_download s;
     image_register := image_register s;
     image_upload := image_upload s;
     image_update := image_update s |}.

(** The mutable state a request handler runs in: the middleware object, the
    two globals of the test module that drive the clock, and the log. *)
Record process (C : Type) : Type := {
  self : RateLimitMiddleware C;
  time_ticker : Qc;
  time_override : list (option Qc);
  LOG : list log_record
}.
Arguments self {C} _.
Arguments time_ticker {C} _.
Arguments time_override {C} _.
Arguments LOG {C} _.

(** ** A state monad with exceptions *)

Definition M (C A : Type) : Type := process C → (exn + A) * process C.

Definition ret {C A : Type} (a : A) : M C A := λ p, (inr a, p).

Definition raise {C A : Type} (e : exn) : M C A := λ p, (inl e, p).

Definition bind {C A B : Type} (m : M C A) (k : A → M C B) : M C B :=
  λ p, match m p with
       | (inr a, p') => k a p'
       | (inl e, p') => (inl e, p')
       end.

(** [try: m except <handles>: h]: an exception the clause does not name
    goes on. *)
Definition try_except {C A : Type} (m : M C A) (handler : exn → option (M C A))
  : M C A :=
  λ p, match m p with
       | (inr a, p') => (inr a, p')
       | (inl e, p') =>
           match handler e with
           | Some h => h p'
           | None => (inl e, p')
           end
       end.

Declare Scope py_scope.
Delimit Scope py_scope with py.
Notation "x <- m ;; k" := (bind m (λ x, k))
  (at level 100, m at next level, right associativity) : py_scope.
Notation "m ;;; k" := (bind m (λ _, k))
  (at level 100, right associativity) : py_scope.
Local Open Scope py_scope.

Definition get_self {C : Type} : M C (RateLimitMiddleware C) :=
  λ p, (inr (self p), p).

Definition put_self {C : Type} (s : RateLimitMiddleware C) : M C unit :=
  λ p, (inr tt, {| self := s; time_ticker := time_ticker p;
                   time_override := time_override p; LOG := LOG p |}).

(** The process after one more record went to the log. *)
Definition logged {C : Type} (p : process C) (r : log_record) : process C :=
  {| self := self p; time_ticker := time_ticker p;
     time_override := time_override p; LOG := (LOG p ++ [r])%list |}.

(** [LOG.error], [LOG.warning], ...: append a record. *)
Definition log {C : Type} (r : log_record) : M C unit :=
  λ p, (inr tt, logged p r).

(** [mock_sleep(x)]: [time_ticker += x]. *)
Definition mock_sleep {C : Type} (x : Qc) : M C unit :=
  λ p, (inr tt, {| self := self p; time_ticker := (time_ticker p + x)%Qc;
                   time_override := time_override p; LOG := LOG p |}).

(** [mock_time()]: the next entry of [time_override] when there is one (a
    [None] entry shifts the remaining entries by the ticker and yields the
    ticker), the ticker otherwise. *)
Definition mock_time {C : Type} : M C Qc :=
  λ p, match time_override p with
       | [] => (inr (time_ticker p), p)
       | Some cur_time :: rest =>
           (inr cur_time, {| self := self p; time_ticker := time_ticker p;
                             time_override := rest; LOG := LOG p |})
       | None :: rest =>
           (inr (time_ticker p),
            {| self := self p; time_ticker := time_ticker p;
               time_override :=
                 (λ i, match i with
                       | None => None
                       | Some i => Some (i + time_ticker p)%Qc
                       end) <$> rest;
               LOG := LOG p |})
       end.

(** [x / y] on floats. *)
Definition py_div {C : Type} (x y : Qc) : M C Qc :=
  if bool_decide (y = 0%Qc) then raise ZeroDivisionError else ret (x / y)%Qc.

(** The process after [self.memcache_client] has moved to [c]. *)
Definition with_client {C : Type} (p : process C) (c : C) : process C :=
  {| self := set_memcache_client (self p) (Some c);
     time_ticker := time_ticker p;
     time_override := time_override p; LOG := LOG p |}.

(** A call on [self.memcache_client]; on [None] the attribute lookup fails. *)
Definition on_client {C A : Type} (f : C → (exn + A) * C) : M C A :=
  λ p, match memcache_client (self p) with
       | None => (inl AttributeError, p)
       | Some c => let '(r, c') := f c in (r, with_client p c')
       end.

(** The two tests of [_get_sleep_time]. The first is on ints in clock
    units. *)
Definition idle_longer_than_buffer {C : Type} (s : RateLimitMiddleware C)
    (now_m running_time_m : Z) : bool :=
  rate_buffer_seconds s * clock_accuracy s <? now_m - running_time_m.

(** The second is on floats,
    [max_sleep_m - need_to_sleep_m <= self.clock_accuracy * 0.01] with
    [max_sleep_m = self.max_sleep_time_seconds * self.clock_accuracy]: the
    two products and the difference are rounded to binary64, and so is the
    int [need_to_sleep_m] when the difference converts it. *)
Definition max_sleep_hit {C : Type} (s : RateLimitMiddleware C)
    (need_to_sleep_m : Z) : bool :=
  let max_sleep_m :=
    Py.mul (max_sleep_time_seconds s) (Py.float (clock_accuracy s)) in
  Py.leb (Py.sub max_sleep_m (Py.fl (Py.float need_to_sleep_m)))
         (Py.mul (Py.float (clock_accuracy s)) Py.one_percent).

(** ** The methods of [RateLimitMiddleware] *)

Section Middleware.

Context {C : Type} `{!MemcacheClient C}.

(** [self.mapper.match(environ=env)] followed by [.get('action')]: the action
    of the first route of the table built by the constructor that the request
    matches, [None] when no route matches. The [routes] package is not part of
    the repository. *)
Variable mapper_match : environ C → option string.

Definition limitable_methods : list string :=
  ["GET"; "PUT"; "POST"; "DELETE"; "HEAD"].

(** The actions [_get_limit_for_action] knows. *)
Definition recognized_actions : list string :=
  ["image_list"; "image_download"; "image_register"; "image_upload";
   "image_update"].

(** ["%s" % action]. *)
Definition str_of_action (action : option string) : string :=
  match action with
  | None => "None"
  | Some a => a
  end.

Definition account_key (auth_tok : string) : string :=
  "ratelimit/" +:+ auth_tok.

Definition action_key (auth_tok : string) (action : option string) : string :=
  "ratelimit/" +:+ auth_tok +:+ "/" +:+ str_of_action action.

Definition _get_limit_for_action (action : option string) : M C Qc :=
  s <- get_self;;
  let limit : option Qc := None in
  let limit := if bool_decide (action = Some "image_list")
               then Some (image_list s) else limit in
  let limit := if bool_decide (action = Some "image_download")
               then Some (image_download s) else limit in
  let limit := if bool_decide (action = Some "image_register")
               then Some (image_register s) else limit in
  let limit := if bool_decide (action = Some "image_upload")
               then Some (image_upload s) else limit in
  let limit := if bool_decide (action = Some "image_update")
               then Some (image_update s) else limit in
  match limit with
  | None => raise (ValueError action)
  | Some l => ret l
  end.

Definition get_ratelimitable_key_tuples
    (req : Request) (auth_tok : string) (action : option string)
  : M C (list (string * Qc)) :=
  s <- get_self;;
  let keys : list (string * Qc) := [] in
  let keys :=
    if bool_decide (method req ∈ limitable_methods)
       && Py.truthy (account_ratelimit s)
    then (keys ++ [(account_key auth_tok, account_ratelimit s)])%list
    else keys in
  limit <- try_except (_get_limit_for_action action)
             (λ e, match e with
                   | ValueError _ => Some (log (LogError e);;; ret (Py.float 0))
                   | _ => None
                   end);;
  let keys :=
    if Py.ltb (Py.float 0) limit
    then (keys ++ [(action_key auth_tok action, limit)])%list
    else keys in
  ret keys.

(** The [try] block of [_get_sleep_time], first half: read the clock,
    reserve a slot with [incr], and either reset an idle bucket or compute
    the wait. Yields [(time_per_request_m, need_to_sleep_m)]. *)
Definition reserve_slot (key : string) (max_rate : Qc) : M C (Z * Z) :=
  s <- get_self;;
  t <- mock_time;;
  let now_m := Py.round (t * Py.float (clock_accuracy s))%Qc in
  q <- py_div (Py.float (clock_accuracy s)) max_rate;;
  let time_per_request_m := Py.round q in
  running_time_m <- on_client (λ c, incr c key time_per_request_m);;
  if idle_longer_than_buffer s now_m running_time_m
  then
    let next_avail_time := now_m + time_per_request_m in
    on_client (λ c, set c key next_avail_time);;;
    ret (time_per_request_m, 0)
  else
    ret (time_per_request_m,
         Z.max (running_time_m - now_m - time_per_request_m) 0).

(** Second half: refuse a wait at the ceiling, undoing the reservation, or
    return the wait in seconds. *)
Definition check_max_sleep (key : string) (time_per_request_m need_to_sleep_m : Z)
  : M C Qc :=
  s <- get_self;;
  if max_sleep_hit s need_to_sleep_m
  then
    on_client (λ c, decr c key time_per_request_m);;;
    d <- py_div (Py.float need_to_sleep_m) (Py.float (clock_accuracy s));;
    raise (MaxSleepTimeHitError d)
  else
    py_div (Py.float need_to_sleep_m) (Py.float (clock_accuracy s)).

(** The body of the [try] block of [_get_sleep_time]. *)
Definition _get_sleep_time_try (key : string) (max_rate : Qc) : M C Qc :=
  r <- reserve_slot key max_rate;;
  check_max_sleep key r.1 r.2.

Definition _get_sleep_time (key : string) (max_rate : Qc) : M C Qc :=
  try_except (_get_sleep_time_try key max_rate)
    (λ e, match e with
          | MemcacheConnectionError _ => Some (log (LogError e);;; ret (Py.float 0))
          | _ => None
          end).

Definition error_resp : Response :=
  {| status := "429 Rate Limited"; body := "Slow down" |}.

(** One turn of the [for key, max_rate in limits] loop of
    [handle_ratelimit]; [Some] is the [return error_resp] that leaves it. *)
Definition check_bucket (key : string) (max_rate : Qc) : M C (option Response) :=
  try_except
    (need_to_sleep <- _get_sleep_time key max_rate;;
     s <- get_self;;
     (if Py.truthy (log_sleep_time_seconds s)
         && Py.ltb (log_sleep_time_seconds s) need_to_sleep
      then log (LogWarningSleep need_to_sleep key)
      else ret tt);;;
     (if Py.ltb (Py.float 0) need_to_sleep
      then mock_sleep need_to_sleep
      else ret tt);;;
     ret None)
    (λ e, match e with
          | MaxSleepTimeHitError _ =>
              Some (log (LogWarningReturning HTTP_TOO_MANY_REQUESTS key);;;
                    ret (Some error_resp))
          | _ => None
          end).

Fixpoint handle_limits (limits : list (string * Qc)) : M C (option Response) :=
  match limits with
  | [] => ret None
  | (key, max_rate) :: rest =>
      r <- check_bucket key max_rate;;
      match r with
      | Some resp => ret (Some resp)
      | None => handle_limits rest
      end
  end.

Definition handle_ratelimit
    (req : Request) (auth_tok : string) (action : option string)
  : M C (option Response) :=
  s <- get_self;;
  match memcache_client s with
  | None => log LogErrorClientIsNone;;; ret None
  | Some _ =>
      limits <- get_ratelimitable_key_tuples req auth_tok action;;
      handle_limits limits
  end.

(** [item_from_env(env, 'glance.cache')], through [cache_from_env]. *)
Definition cache_from_env (env : environ C) : M C (option C) :=
  match glance_cache env with
  | None => log (LogErrorNotInEnv "glance.cache");;; ret None
  | Some c => ret (Some c)
  end.

Definition __call__ (env : environ C) : M C wsgi_result :=
  let req := {| method := REQUEST_METHOD env |} in
  s <- get_self;;
  (match memcache_client s with
   | None => c <- cache_from_env env;; put_self (set_memcache_client s c)
   | Some _ => ret tt
   end);;;
  s <- get_self;;
  match memcache_client s with
  | None => log LogWarningNoClient;;; ret (FromApp (app s env))
  | Some _ =>
      match HTTP_X_AUTH_TOKEN env with
      | None => log LogInfoNoToken;;; ret (FromApp (app s env))
      | Some account =>
          let action := mapper_match env in
          (match action with
           | Some a => if bool_decide (a = "") then ret tt
                       else log (LogDebugAction a)
           | None => ret tt
           end);;;
          ratelimit_resp <- handle_ratelimit req account action;;
          match ratelimit_resp with
          | None => s <- get_self;; ret (FromApp (app s env))
          | Some resp => ret (FromRateLimit resp)
          end
      end
  end.

End Middleware.

(** [for x in range(0, num): result = callable_func()], the loop of the
    tests' [_run]. *)
Fixpoint repeat_call {C A : Type} (callable_func : M C A) (num : nat)
  : M C unit :=
  match num with
  | O => ret tt
  | S n => callable_func;;; repeat_call callable_func n
  end.

(** ** Set-ups of the unit tests *)

(** [FakeApp]. *)
Definition FakeApp {C : Type} : environ C → list string :=
  λ _, ["204 No Content"].

(** [{'account_ratelimit': rate}] with further options set on top. *)
Definition conf_account (rate : Qc) (max_sleep : option Qc)
    (list_rate : option Qc) : conf :=
  {| conf_clock_accuracy := None; conf_rate_buffer_seconds := None;
     conf_max_sleep_time_seconds := max_sleep;
     conf_log_sleep_time_seconds := None;
     conf_account_ratelimit := Some rate; conf_image_list := list_rate;
     conf_image_download := None; conf_image_register := None;
     conf_image_upload := None; conf_image_update := None |}.

(** A [FakeMemcache] that already holds [buckets]. *)
Definition fake_with (buckets : list (string * Z)) : Fake.FakeMemcache :=
  Fake.with_store Fake.init (list_to_map buckets).

(** A [FakeMemcache] with [error_on_incr] set. *)
Definition fake_restarting : Fake.FakeMemcache :=
  {| Fake.store := ∅; Fake.error_on_incr := true;
     Fake.init_incr_return_neg := false |}.

(** The process of a test: a middleware built from [c] whose
    [memcache_client] is [m], the mocked clock at [now], nothing logged. *)
Definition test_process (c : conf) (m : Fake.FakeMemcache) (now : Qc)
  : process Fake.FakeMemcache :=
  {| self := set_memcache_client (__init__ FakeApp c) (Some m);
     time_ticker := now; time_override := []; LOG := [] |}.

(** The token and the two bucket keys the examples use. *)
Definition tok : string := "HPAuth10_123456789".
Definition tok_key : string := account_key tok.
Definition tok_list_key : string := action_key tok (Some "image_list").

(** Five requests per second, and a bucket that is 400 units ahead of the
    clock. *)
Definition busy_process : process Fake.FakeMemcache :=
  test_process (conf_account (Py.float 5) None None)
    (fake_with [(tok_key, 400)]) (Py.float 0).

(** Two requests per second, a ceiling of one second, and a bucket three
    seconds ahead of the clock. *)
Definition refusing_process : process Fake.FakeMemcache :=
  test_process (conf_account (Py.float 2) (Some (Py.float 1)) None)
    (fake_with [(tok_key, 3000)]) (Py.float 0).

(** A ceiling of zero seconds, and a bucket last used 99 seconds ago. *)
Definition idle_refusing_process : process Fake.FakeMemcache :=
  test_process (conf_account (Py.float 2) (Some (Py.float 0)) None)
    (fake_with [(tok_key, 1000)]) (Py.float 100).

(** The default ceiling, and a bucket last used 99 seconds ago. *)
Definition idle_process : process Fake.FakeMemcache :=
  test_process (conf_account (Py.float 2) None None)
    (fake_with [(tok_key, 1000)]) (Py.float 100).

(** An account limit of two and an [image_list] limit of one request per
    second with a ceiling of one second; the account bucket is half a second
    ahead of the clock, the [image_list] bucket three seconds. *)
Definition two_bucket_process : process Fake.FakeMemcache :=
  test_process
    (conf_account (Py.float 2) (Some (Py.float 1)) (Some (Py.float 1)))
    (fake_with [(tok_key, 500); (tok_list_key, 3000)]) (Py.float 0).

(** The store of [test_restarting_memcache]. *)
Definition restarting_process : process Fake.FakeMemcache :=
  test_process (conf_account (Py.float 2) None None) fake_restarting
    (Py.float 0).

(** [{'account_ratelimit': rate, 'clock_accuracy': ca,
    'rate_buffer_seconds': buffer, 'max_sleep_time_seconds': max_sleep}],
    the account bucket of [tok] holding [bucket], the clock at 0. *)
Definition ceiling_process (ca buffer : Z) (max_sleep rate : Qc) (bucket : Z)
  : process Fake.FakeMemcache :=
  test_process
    {| conf_clock_accuracy := Some ca;
       conf_rate_buffer_seconds := Some buffer;
       conf_max_sleep_time_seconds := Some max_sleep;
       conf_log_sleep_time_seconds := None;
       conf_account_ratelimit := Some rate; conf_image_list := None;
       conf_image_download := None; conf_image_register := None;
       conf_image_upload := None; conf_image_update := None |}
    (fake_with [(tok_key, bucket)]) (Py.float 0).

Definition put_request : Request := {| method := "PUT" |}.

(** A request without [x-auth-token]. *)
Definition anonymous_environ : environ Fake.FakeMemcache :=
  {| REQUEST_METHOD := "GET"; PATH_INFO := "/v1/images";
     HTTP_X_AUTH_TOKEN := None; glance_cache := Some Fake.init |}.

(** The int that bucket [key] holds in the [FakeMemcache] of the middleware. *)
Definition bucket_value (p : process Fake.FakeMemcache) (key : string) : Z :=
  match memcache_client (self p) with
  | Some m => Fake.value m key
  | None => 0
  end.

(** ** A bucket in step with the clock *)

(** The bucket [key] of a healthy [FakeMemcache] is exactly one request slot
    ahead of the clock, which reads [now] and is not overridden. [s0] is the
    middleware up to the client it holds. *)
Definition one_slot_ahead (s0 : RateLimitMiddleware Fake.FakeMemcache)
    (key : string) (max_rate : Qc) (now : Qc)
    (p : process Fake.FakeMemcache) : Prop :=
  ∃ m, self p = set_memcache_client s0 (Some m)
       ∧ Fake.error_on_incr m = false
       ∧ Fake.init_incr_return_neg m = false
       ∧ time_override p = []
       ∧ time_ticker p = now
       ∧ Fake.value m key =
           Py.round (now * Py.float (clock_accuracy s0))%Qc
           + Py.round (Py.float (clock_accuracy s0) / max_rate)%Qc.

(** The bucket [key] has never been used, and the clock reads [now]. *)
Definition fresh_bucket (s0 : RateLimitMiddleware Fake.FakeMemcache)
    (key : string) (now : Qc) (p : process Fake.FakeMemcache) : Prop :=
  ∃ m, self p = set_memcache_client s0 (Some m)
       ∧ Fake.error_on_incr m = false
       ∧ Fake.init_incr_return_neg m = false
       ∧ time_override p = []
       ∧ time_ticker p = now
       ∧ Fake.store m !! key = None.

(** ** A store that is down *)

Section Unavailable.

Context {C : Type} `{!MemcacheClient C}.

(** A set of client states in which every [incr] raises
    [MemcacheConnectionError] and that such a call does not leave. *)
Definition always_unavailable (failing : C → Prop) : Prop :=
  ∀ c key delta, failing c →
    ∃ msg c', incr c key delta = (inl (MemcacheConnectionError msg), c')
              ∧ failing c'.

Definition client_in (failing : C → Prop) (p : process C) : Prop :=
  ∃ c, memcache_client (self p) = Some c ∧ failing c.

End Unavailable.

(** ** Runs that differ in logging only *)

(** The middleware objects agree on every attribute but
    [log_sleep_time_seconds]. *)
Definition same_but_log_threshold {C : Type} (s1 s2 : RateLimitMiddleware C)
  : Prop :=
  set_log_sleep_time_seconds s1 (Py.float 0)
  = set_log_sleep_time_seconds s2 (Py.float 0).

(** The processes agree on the clock and, up to the log threshold, on the
    middleware; their logs are not compared. *)
Definition same_but_logging {C : Type} (p q : process C) : Prop :=
  same_but_log_threshold (self p) (self q)
  ∧ time_ticker p = time_ticker q
  ∧ time_override p = time_override q.

(** The process whose middleware has [log_sleep_time_seconds] set to [x]. *)
Definition with_log_sleep_time_seconds {C : Type} (p : process C) (x : Qc)
  : process C :=
  {| self := set_log_sleep_time_seconds (self p) x;
     time_ticker := time_ticker p;
     time_override := time_override p; LOG := LOG p |}.

(** Two computations started in such processes end in such processes, with
    the same exception or with results related by [R]. *)
Definition agree {C A : Type} (R : A → A → Prop) (m1 m2 : M C A) : Prop :=
  ∀ p q, same_but_logging p q →
    same_but_logging (m1 p).2 (m2 q).2
    ∧ match (m1 p).1, (m2 q).1 with
      | inr a, inr b => R a b
      | inl e1, inl e2 => e1 = e2
      | _, _ => False
      end.

(** ** What a request leaves as it was *)

(** The middleware of [p'] is that of [p] up to the client it holds, and
    the clock of [p'] is not behind that of [p]. *)
Definition moved_on {C : Type} (p p' : process C) : Prop :=
  self p' = set_memcache_client (self p) (memcache_client (self p'))
  ∧ (time_ticker p ≤ time_ticker p')%Qc.

(** Whatever the outcome, [m] only moves a process on. *)
Definition moves_on {C A : Type} (m : M C A) : Prop :=
  ∀ p, moved_on p (m p).2.

(** Whatever the outcome, [m] leaves bucket [k] of the [FakeMemcache] as it
    was. *)
Definition leaves_bucket {A : Type} (k : string)
    (m : M Fake.FakeMemcache A) : Prop :=
  ∀ p, bucket_value (m p).2 k = bucket_value p k.

(** No rate is configured: the account rate is zero and no action has a
    limit above zero. *)
Definition nothing_limited {C : Type} (s : RateLimitMiddleware C) : Prop :=
  account_ratelimit s = Py.float 0
  ∧ (image_list s ≤ Py.float 0)%Qc
  ∧ (image_download s ≤ Py.float 0)%Qc
  ∧ (image_register s ≤ Py.float 0)%Qc
  ∧ (image_upload s ≤ Py.float 0)%Qc
  ∧ (image_update s ≤ Py.float 0)%Qc.

(** The last record of the log says that bucket [key] answered 429. *)
Definition refusal_logged_last {C : Type} (p : process C) (key : string)
  : Prop :=
  ∃ earlier,
    LOG p = (earlier ++ [LogWarningReturning HTTP_TOO_MANY_REQUESTS key])%list.

(** ** Exceptions that leave a request *)

(** The middleware holds a [FakeMemcache] and its clock accuracy is not
    zero. *)
Definition well_configured (p : process Fake.FakeMemcache) : Prop :=
  clock_accuracy (self p) ≠ 0 ∧ is_Some (memcache_client (self p)).

Definition is_connection_error (e : exn) : Prop :=
  ∃ msg, e = MemcacheConnectionError msg.

Definition is_max_sleep_hit (e : exn) : Prop :=
  ∃ seconds, e = MaxSleepTimeHitError seconds.

(** From a well-configured process [m] ends in one, and an exception that
    leaves [m] satisfies [P]. *)
Definition raises_only {A : Type} (P : exn → Prop)
    (m : M Fake.FakeMemcache A) : Prop :=
  ∀ p, well_configured p →
    well_configured (m p).2 ∧ ∀ e, (m p).1 = inl e → P e.

(** ** Further set-ups *)

(** A request by [tok] that carries no [glance.cache]. *)
Definition token_environ (the_method : string) : environ Fake.FakeMemcache :=
  {| REQUEST_METHOD := the_method; PATH_INFO := "/v1/images";
     HTTP_X_AUTH_TOKEN := Some tok; glance_cache := None |}.

(** A route table under which every request is an [image_list]. *)
Definition list_route : environ Fake.FakeMemcache → option string :=
  λ _, Some "image_list".

(** [{'account_ratelimit': 2, 'clock_accuracy': 0}] on an empty store. *)
Definition zero_clock_process : process Fake.FakeMemcache :=
  test_process
    {| conf_clock_accuracy := Some 0; conf_rate_buffer_seconds := None;
       conf_max_sleep_time_seconds := None;
       conf_log_sleep_time_seconds := None;
       conf_account_ratelimit := Some (Py.float 2); conf_image_list := None;
       conf_image_download := None; conf_image_register := None;
       conf_image_upload := None; conf_image_update := None |}
    Fake.init (Py.float 0).

(** A middleware built from an empty [conf], on an empty store. *)
Definition unlimited_process : process Fake.FakeMemcache :=
  test_process empty_conf Fake.init (Py.float 0).

(** A middleware right after its construction: it holds no client yet. *)
Definition new_process : process Fake.FakeMemcache :=
  {| self := __init__ FakeApp (conf_account (Py.float 2) None None);
     time_ticker := Py.float 0; time_override := []; LOG := [] |}.

(** ** Property protection rules (glance/common/property_utils.py) *)

Module PropertyRules.

(** What [check_property_rules] raises: the [HTTPInternalServerError] of a
    malformed rule, and the [TypeError] of ['@' in None] when a rule has no
    entry for the action. *)
Inductive error : Type :=
| HTTPInternalServerError (property_name : string)
| TypeError.

Section Rules.

(** A compiled regular expression, and [rule_exp.search(name)] read as a
    truth value. The [re] module is not part of the repository. *)
Variable pattern : Type.
Variable search : pattern → string → bool.

(** [self.rules]: pairs of a compiled expression and the dict from an
    operation to the roles it is permitted to. *)
Definition rules : Type := list (pattern * gmap string (list string)).

Definition operations : list string := ["create"; "read"; "update"; "delete"].

(** [set(roles).intersection(set(permitted_roles))] as a truth value. *)
Definition shares_a_role (roles permitted_roles : list string) : bool :=
  bool_decide
    ((list_to_set roles ∩ list_to_set permitted_roles : gset string) ≠ ∅).

(** The [for rule_exp, rule in self.rules] loop and the [return False] after
    it. The second component is what went to [LOG.error]. *)
Fixpoint check_rules (rs : rules) (property_name action : string)
    (roles : list string) : (error + bool) * list string :=
  match rs with
  | [] => (inr false, [])
  | (rule_exp, rule) :: rest =>
      if search rule_exp property_name then
        match rule !! action with
        | None => (inl TypeError, [])
        | Some permitted_roles =>
            if bool_decide ("@" ∈ permitted_roles)
               && bool_decide ("!" ∈ permitted_roles)
            then (inl (HTTPInternalServerError property_name),
                  [property_name])
            else if bool_decide ("@" ∈ permitted_roles) then (inr true, [])
            else if bool_decide ("!" ∈ permitted_roles) then (inr false, [])
            else if shares_a_role roles permitted_roles then (inr true, [])
            else check_rules rest property_name action roles
        end
      else check_rules rest property_name action roles
  end.

Definition check_property_rules (rs : rules) (property_name action : string)
    (roles : list string) : (error + bool) * list string :=
  match rs with
  | [] => (inr true, [])
  | _ => if bool_decide (action ∈ operations)
         then check_rules rs property_name action roles
         else (inr false, [])
  end.

End Rules.

(** A compiled expression given by the names it matches. *)
Definition matching : (string → bool) → string → bool := λ rule_exp, rule_exp.

(** Two rules: everybody may read a property whose name starts with [x_],
    only [member] may change it; any other property is for [operator] to
    read and for nobody to change. *)
Definition example_rules : rules (string → bool) :=
  [ (String.prefix "x_",
     {[ "create" := ["member"]; "read" := ["@"]; "update" := ["member"];
        "delete" := ["member"] ]});
    (λ _, true,
     {[ "create" := ["!"]; "read" := ["operator"]; "update" := ["!"];
        "delete" := ["!"] ]}) ].

End PropertyRules.

(** * Properties *)

(** ** Arithmetic of the float model *)

Lemma float_0 : Py.float 0 = 0%Qc.
Proof. apply Z2Qc_inj_0. Qed.

Lemma float_nonneg (n : Z) : 0 ≤ n → (0 ≤ Py.float n)%Qc.
Proof. intros Hn. rewrite <- Z2Qc_inj_0. unfold Py.float. by rewrite <- Z2Qc_inj_le. Qed.

Lemma float_eq_0 (n : Z) : Py.float n = 0%Qc → n = 0.
Proof. rewrite <- Z2Qc_inj_0. unfold Py.float. apply Z2Qc_inj. Qed.

Lemma float_ne_0 (n : Z) : n ≠ 0 → Py.float n ≠ 0%Qc.
Proof. intros Hn Hf. by apply Hn, float_eq_0. Qed.

Lemma leb_true (x y : Qc) : Py.leb x y = true ↔ (x ≤ y)%Qc.
Proof. unfold Py.leb. apply bool_decide_eq_true. Qed.

Lemma leb_false (x y : Qc) : Py.leb x y = false ↔ (y < x)%Qc.
Proof. unfold Py.leb. rewrite bool_decide_eq_false. symmetry. apply Qclt_nge. Qed.

Lemma ltb_true (x y : Qc) : Py.ltb x y = true ↔ (x < y)%Qc.
Proof. unfold Py.ltb. apply bool_decide_eq_true. Qed.

Lemma ltb_false (x y : Qc) : Py.ltb x y = false ↔ (y ≤ x)%Qc.
Proof. unfold Py.ltb. rewrite bool_decide_eq_false. symmetry. apply Qcle_ngt. Qed.

(** ** Rounding to binary64 *)

Section Binary64.

Local Open Scope Q_scope.

Lemma pow2_pos (k : Z) : 0 < 2 ^ k.
Proof. by apply Qpower_0_lt. Qed.

Lemma pow2_succ (k : Z) : 2 ^ (k + 1) == 2 * 2 ^ k.
Proof. rewrite Qpower_plus by done. rewrite Qpower_1_r. ring. Qed.

Lemma pow2_Z (k : Z) : (0 <= k)%Z → inject_Z (2 ^ k) == 2 ^ k.
Proof. intros Hk. by rewrite Zpower_Qpower. Qed.

Lemma ilog2_spec (x : Q) :
  0 < x → 2 ^ Py.ilog2 x <= x ∧ x < 2 ^ (Py.ilog2 x + 1).
Proof.
  intros Hx. destruct x as [n d]. unfold Py.ilog2. cbn [Qnum Qden].
  assert (0 < n)%Z as Hn by (unfold Qlt in Hx; cbn in Hx; lia).
  set (a := Z.log2 n). set (b := Z.log2 (Z.pos d)).
  destruct (Z.log2_spec n Hn) as [Ha1 Ha2]. fold a in Ha1, Ha2.
  destruct (Z.log2_spec (Z.pos d) (Pos2Z.is_pos d)) as [Hb1 Hb2].
  fold b in Hb1, Hb2.
  assert (0 <= a)%Z as Ha0 by apply Z.log2_nonneg.
  assert (0 <= b)%Z as Hb0 by apply Z.log2_nonneg.
  assert (2 ^ (a - b) == 2 ^ a / 2 ^ b) as Hk by by apply Qpower_minus.
  assert (0 < 2 ^ a) as HA by apply pow2_pos.
  assert (0 < 2 ^ b) as HB by apply pow2_pos.
  assert (2 ^ a <= inject_Z n) as HN1.
  { rewrite <- pow2_Z by done. by rewrite <- Zle_Qle. }
  assert (inject_Z n < 2 * 2 ^ a) as HN2.
  { rewrite <- pow2_succ, <- pow2_Z by lia. rewrite <- Zlt_Qlt.
    by replace (a + 1)%Z with (Z.succ a) by lia. }
  assert (2 ^ b <= inject_Z (Z.pos d)) as HD1.
  { rewrite <- pow2_Z by done. by rewrite <- Zle_Qle. }
  assert (inject_Z (Z.pos d) < 2 * 2 ^ b) as HD2.
  { rewrite <- pow2_succ, <- pow2_Z by lia. rewrite <- Zlt_Qlt.
    by replace (b + 1)%Z with (Z.succ b) by lia. }
  assert (n # d == inject_Z n / inject_Z (Z.pos d)) as Hnd
    by apply Qmake_Qdiv.
  assert (0 < inject_Z (Z.pos d)) as HD0
    by (eapply Qlt_le_trans; [exact HB|exact HD1]).
  assert (2 ^ (a - b) * 2 ^ b == 2 ^ a) as Hab.
  { rewrite Hk. field. by apply Qpower_not_0. }
  assert (0 < 2 ^ (a - b)) as Hq by apply pow2_pos.
  assert (n # d < 2 ^ (a - b + 1)) as Hhi.
  { rewrite pow2_succ, Hnd. apply Qlt_shift_div_r; [done|]. nra. }
  assert (2 ^ (a - b - 1) <= n # d) as Hlo.
  { assert (2 ^ (a - b) == 2 * 2 ^ (a - b - 1)) as Hs.
    { rewrite <- pow2_succ. by replace (a - b - 1 + 1)%Z with (a - b)%Z by lia. }
    assert (0 < 2 ^ (a - b - 1)) as Hp by apply pow2_pos.
    rewrite Hnd. apply Qle_shift_div_l; [done|]. nra. }
  destruct (Qle_bool (2 ^ (a - b)) (n # d)) eqn:Hle.
  - apply Qle_bool_iff in Hle. done.
  - assert (n # d < 2 ^ (a - b)) as Hlt.
    { apply Qnot_le_lt. intros H. apply Qle_bool_iff in H. congruence. }
    split; [done|]. by replace (a - b - 1 + 1)%Z with (a - b)%Z by lia.
Qed.

Lemma ilog2_mono (x y : Q) : 0 < x → x <= y → (Py.ilog2 x <= Py.ilog2 y)%Z.
Proof.
  intros Hx Hxy.
  destruct (ilog2_spec x Hx) as [Hx1 _].
  assert (0 < y) as Hy by (eapply Qlt_le_trans; done).
  destruct (ilog2_spec y Hy) as [_ Hy2].
  assert (2 ^ Py.ilog2 x < 2 ^ (Py.ilog2 y + 1)) as Hlt.
  { eapply Qle_lt_trans; [exact Hx1|]. eapply Qle_lt_trans; done. }
  apply Qpower_lt_compat_l_inv in Hlt; [lia|done].
Qed.

Lemma round_half_even_floor (x : Q) :
  (Qfloor x <= Py.round_half_even x <= Qfloor x + 1)%Z.
Proof. unfold Py.round_half_even. repeat case_match; lia. Qed.

Lemma round_half_even_mono (x y : Q) :
  x <= y → (Py.round_half_even x <= Py.round_half_even y)%Z.
Proof.
  intros Hxy. pose proof (Qfloor_resp_le _ _ Hxy) as Hf.
  pose proof (round_half_even_floor x) as Hx.
  pose proof (round_half_even_floor y) as Hy.
  destruct (Z.eq_dec (Qfloor x) (Qfloor y)) as [Heq|Hne]; [|lia].
  unfold Py.round_half_even in *. rewrite <- Heq in *.
  destruct (Qcompare_spec (x - inject_Z (Qfloor x)) (1 # 2)) as [Hcx|Hcx|Hcx];
    destruct (Qcompare_spec (y - inject_Z (Qfloor x)) (1 # 2)) as [Hcy|Hcy|Hcy];
    try (destruct (Z.even (Qfloor x))); try lia; exfalso; lra.
Qed.

Lemma round_half_even_lower (x : Q) (n : Z) :
  inject_Z n <= x → (n <= Py.round_half_even x)%Z.
Proof.
  intros Hx. pose proof (round_half_even_floor x) as Hr.
  apply Qfloor_resp_le in Hx. rewrite Qfloor_Z in Hx. lia.
Qed.

Lemma round_half_even_upper (x : Q) (n : Z) :
  x < inject_Z n → (Py.round_half_even x <= n)%Z.
Proof.
  intros Hx. pose proof (round_half_even_floor x) as Hr.
  assert (Qfloor x < n)%Z; [|lia].
  rewrite Zlt_Qlt. eapply Qle_lt_trans; [apply Qfloor_le|done].
Qed.

Lemma round_half_even_nonneg (x : Q) : 0 <= x → (0 <= Py.round_half_even x)%Z.
Proof. intros Hx. by apply (round_half_even_lower x 0). Qed.

Lemma nearest_binary64_nonneg (x : Q) : 0 <= x → 0 <= Py.nearest_binary64 x.
Proof.
  intros Hx. unfold Py.nearest_binary64.
  set (e := Z.max _ _).
  pose proof (pow2_pos e) as He.
  apply Qmult_le_0_compat; [|by apply Qlt_le_weak].
  change 0 with (inject_Z 0). rewrite <- Zle_Qle.
  apply round_half_even_nonneg.
  apply Qle_shift_div_l; [done|]. by rewrite Qmult_0_l.
Qed.

Lemma nearest_binary64_mono (x y : Q) :
  0 < x → x <= y → Py.nearest_binary64 x <= Py.nearest_binary64 y.
Proof.
  intros Hx Hxy.
  assert (0 < y) as Hy by (eapply Qlt_le_trans; done).
  pose proof (ilog2_mono x y Hx Hxy) as Hlog.
  unfold Py.nearest_binary64.
  set (ex := Z.max (Py.ilog2 x - 52) (-1074)).
  set (ey := Z.max (Py.ilog2 y - 52) (-1074)).
  pose proof (pow2_pos ex) as Hex. pose proof (pow2_pos ey) as Hey.
  destruct (Z.eq_dec ex ey) as [Heq|Hne].
  - rewrite <- Heq. apply Qmult_le_compat_r; [|by apply Qlt_le_weak].
    rewrite <- Zle_Qle. apply round_half_even_mono.
    apply Qmult_le_compat_r; [done|]. by apply Qlt_le_weak, Qinv_lt_0_compat.
  - assert (ex < ey)%Z as Hlt by lia.
    assert (ey = Py.ilog2 y - 52)%Z as Hey' by lia.
    destruct (ilog2_spec x Hx) as [_ Hx2].
    destruct (ilog2_spec y Hy) as [Hy1 _].
    (* the rounded significand of x is at most 2^53 *)
    assert (Py.round_half_even (x / 2 ^ ex) <= 2 ^ 53)%Z as Hmx.
    { apply round_half_even_upper. rewrite pow2_Z by done.
      apply Qlt_shift_div_r; [done|]. rewrite <- Qpower_plus by done.
      eapply Qlt_le_trans; [exact Hx2|].
      apply Qpower_le_compat_l; [lia|done]. }
    (* that of y at least 2^52 *)
    assert (2 ^ 52 <= Py.round_half_even (y / 2 ^ ey))%Z as Hmy.
    { apply round_half_even_lower. rewrite pow2_Z by done.
      apply Qle_shift_div_l; [done|]. rewrite <- Qpower_plus by done.
      eapply Qle_trans; [|exact Hy1].
      apply Qpower_le_compat_l; [lia|done]. }
    rewrite Zle_Qle in Hmx, Hmy.
    eapply Qle_trans.
    { apply Qmult_le_compat_r; [exact Hmx|by apply Qlt_le_weak]. }
    eapply Qle_trans.
    2:{ apply Qmult_le_compat_r; [exact Hmy|by apply Qlt_le_weak]. }
    rewrite !pow2_Z by done. rewrite <- !Qpower_plus by done.
    apply Qpower_le_compat_l; [lia|done].
Qed.

End Binary64.

Lemma fl_0 : Py.fl 0%Qc = 0%Qc.
Proof. reflexivity. Qed.

Ltac to_Q :=
  unfold Qcle, Qclt in *; cbn [this Q2Qc Qcopp] in *;
  change (Qred 0) with 0%Q in *; rewrite ?Qred_correct in *.

Lemma fl_nonneg (x : Qc) : (0 ≤ x)%Qc → (0 ≤ Py.fl x)%Qc.
Proof.
  intros Hx. unfold Py.fl.
  destruct (Qcompare_spec x 0) as [H|H|H]; to_Q.
  - done.
  - exfalso. lra.
  - apply nearest_binary64_nonneg. by apply Qlt_le_weak.
Qed.

Lemma fl_nonpos (x : Qc) : (x ≤ 0)%Qc → (Py.fl x ≤ 0)%Qc.
Proof.
  intros Hx. unfold Py.fl.
  destruct (Qcompare_spec x 0) as [H|H|H]; to_Q.
  - done.
  - assert (0 <= Py.nearest_binary64 (- x))%Q.
    { apply nearest_binary64_nonneg. lra. }
    lra.
  - exfalso. lra.
Qed.

Lemma fl_mono (x y : Qc) : (x ≤ y)%Qc → (Py.fl x ≤ Py.fl y)%Qc.
Proof.
  intros Hxy.
  destruct (Qclt_le_dec x 0) as [Hx|Hx]; destruct (Qclt_le_dec y 0) as [Hy|Hy].
  - unfold Py.fl.
    destruct (Qcompare_spec x 0) as [H|H|H];
      destruct (Qcompare_spec y 0) as [H'|H'|H']; to_Q; try (exfalso; lra).
    assert (Py.nearest_binary64 (- y) <= Py.nearest_binary64 (- x))%Q.
    { apply nearest_binary64_mono; lra. }
    lra.
  - etrans; [apply fl_nonpos; by apply Qclt_le_weak|by apply fl_nonneg].
  - exfalso. apply (Qclt_not_le y 0 Hy). by etrans.
  - pose proof (fl_nonneg y Hy) as Hfy. unfold Py.fl in *.
    destruct (Qcompare_spec x 0) as [H|H|H];
      destruct (Qcompare_spec y 0) as [H'|H'|H']; to_Q; try (exfalso; lra);
      try done.
    by apply nearest_binary64_mono.
Qed.

(** The ceiling test is false exactly when the tolerance, as rounded, is
    below the rounded difference. *)
Lemma max_sleep_hit_false {C : Type} (s : RateLimitMiddleware C) (need : Z) :
  max_sleep_hit s need = false
  ↔ (Py.mul (Py.float (clock_accuracy s)) Py.one_percent
     < Py.sub (Py.mul (max_sleep_time_seconds s) (Py.float (clock_accuracy s)))
         (Py.fl (Py.float need)))%Qc.
Proof. unfold max_sleep_hit. apply leb_false. Qed.

Lemma one_percent_nonneg : (0 ≤ Py.one_percent)%Qc.
Proof. by apply fl_nonneg. Qed.

(** A wait that passes the ceiling test under a clock accuracy that is not
    negative is, in clock units and in exact arithmetic, strictly below the
    ceiling. *)
Lemma below_ceiling {C : Type} (s : RateLimitMiddleware C) (need : Z) :
  0 ≤ clock_accuracy s →
  max_sleep_hit s need = false →
  (Py.float need < max_sleep_time_seconds s * Py.float (clock_accuracy s))%Qc.
Proof.
  intros Hca Hhit. apply max_sleep_hit_false in Hhit.
  assert (0 ≤ Py.mul (Py.float (clock_accuracy s)) Py.one_percent)%Qc as Htol.
  { apply fl_nonneg, Qcmult_nonneg_nonneg;
      [by apply float_nonneg|apply one_percent_nonneg]. }
  apply Qcnot_le_lt. intros Hle. apply fl_mono in Hle.
  assert (Py.sub (Py.mul (max_sleep_time_seconds s)
                    (Py.float (clock_accuracy s)))
            (Py.fl (Py.float need)) ≤ 0)%Qc as Hdiff.
  { apply fl_nonpos. fold (Py.mul (max_sleep_time_seconds s)
                             (Py.float (clock_accuracy s))) in Hle.
    apply (Qcplus_le_mono_r _ _ (Py.fl (Py.float need))).
    by replace (Py.mul (max_sleep_time_seconds s)
                  (Py.float (clock_accuracy s))
                - Py.fl (Py.float need) + Py.fl (Py.float need))%Qc
      with (Py.mul (max_sleep_time_seconds s) (Py.float (clock_accuracy s)))
      by ring; rewrite Qcplus_0_l. }
  apply (Qclt_not_le _ _ Hhit). by etrans.
Qed.

(** With a clock accuracy of zero every wait hits the ceiling. *)
Lemma max_sleep_hit_clock_0 {C : Type} (s : RateLimitMiddleware C) (need : Z) :
  clock_accuracy s = 0 → 0 ≤ need → max_sleep_hit s need = true.
Proof.
  intros Hca Hneed. unfold max_sleep_hit, Py.mul, Py.sub.
  rewrite Hca, float_0, Qcmult_0_r, Qcmult_0_l, fl_0. apply leb_true.
  apply fl_nonpos. apply float_nonneg, fl_nonneg in Hneed.
  replace (0 - Py.fl (Py.float need))%Qc with (- Py.fl (Py.float need))%Qc
    by ring.
  apply Qcopp_le_compat in Hneed. by replace (- 0)%Qc with 0%Qc in Hneed by ring.
Qed.

(** ** The clock *)

Lemma mock_time_frame {C : Type} (p p1 : process C) (r : exn + Qc) :
  mock_time p = (r, p1) →
  (∃ t, r = inr t) ∧ self p1 = self p ∧ time_ticker p1 = time_ticker p
  ∧ LOG p1 = LOG p.
Proof.
  unfold mock_time. destruct (time_override p) as [|[cur|] rest];
    intros [= <- <-]; eauto.
Qed.

(** ** Properties that hold for every memcache client *)

Section Generic.

Context {C : Type} `{!MemcacheClient C}.

(** [reserve_slot] up to the answer of [incr]. *)
Lemma reserve_slot_after_incr (key : string) (max_rate : Qc) (p p1 : process C)
    (c c1 : C) (t : Qc) (r : exn + Z) :
  max_rate ≠ 0%Qc →
  memcache_client (self p) = Some c →
  mock_time p = (inr t, p1) →
  let s := self p in
  let now_m := Py.round (t * Py.float (clock_accuracy s))%Qc in
  let tpr := Py.round (Py.float (clock_accuracy s) / max_rate)%Qc in
  incr c key tpr = (r, c1) →
  reserve_slot key max_rate p =
    match r with
    | inl e => (inl e, with_client p1 c1)
    | inr running =>
        (if idle_longer_than_buffer s now_m running
         then on_client (λ c, set c key (now_m + tpr));;; ret (tpr, 0)
         else ret (tpr, Z.max (running - now_m - tpr) 0)) (with_client p1 c1)
    end.
Proof.
  intros HR Hc Ht s now_m tpr Hincr.
  destruct (mock_time_frame _ _ _ Ht) as (_ & Hself & _).
  unfold reserve_slot.
  unfold bind at 1. unfold get_self at 1.
  unfold bind at 1. rewrite Ht.
  unfold bind at 1. unfold py_div at 1. rewrite bool_decide_false by done.
  unfold ret at 1.
  unfold bind at 1. unfold on_client at 1. rewrite Hself, Hc.
  fold s. fold tpr. rewrite Hincr. by destruct r.
Qed.

Lemma self_with_client (p : process C) (c : C) :
  self (with_client p c) = set_memcache_client (self p) (Some c).
Proof. done. Qed.

(** Below the ceiling [check_max_sleep] returns the wait in seconds. *)
Lemma check_max_sleep_passes (key : string) (tpr need : Z) (p : process C) :
  0 ≤ need →
  max_sleep_hit (self p) need = false →
  check_max_sleep key tpr need p =
    (inr (Py.float need / Py.float (clock_accuracy (self p)))%Qc, p).
Proof.
  intros Hneed Hhit. unfold check_max_sleep, bind, get_self. rewrite Hhit.
  unfold py_div. rewrite bool_decide_false; [done|].
  apply float_ne_0. intros Hca.
  by rewrite (max_sleep_hit_clock_0 _ _ Hca Hneed) in Hhit.
Qed.

(** The busy branch, below the ceiling. *)
Lemma get_sleep_time_busy (key : string) (max_rate : Qc) (p p1 : process C)
    (c c1 : C) (t : Qc) (running : Z) :
  (0 < max_rate)%Qc →
  memcache_client (self p) = Some c →
  mock_time p = (inr t, p1) →
  let s := self p in
  let now_m := Py.round (t * Py.float (clock_accuracy s))%Qc in
  let tpr := Py.round (Py.float (clock_accuracy s) / max_rate)%Qc in
  incr c key tpr = (inr running, c1) →
  now_m - running ≤ rate_buffer_seconds s * clock_accuracy s →
  max_sleep_hit s (Z.max (running - now_m - tpr) 0) = false →
  _get_sleep_time key max_rate p =
    (inr (Py.float (Z.max (running - now_m - tpr) 0)
          / Py.float (clock_accuracy s))%Qc,
     with_client p1 c1).
Proof.
  intros HR Hc Ht s now_m tpr Hincr Hbusy Hpass.
  assert (max_rate ≠ 0%Qc) as HR0.
  { intros ->. by apply Qclt_not_eq in HR. }
  destruct (mock_time_frame _ _ _ Ht) as (_ & Hself & _).
  unfold _get_sleep_time, try_except, _get_sleep_time_try.
  unfold bind at 1.
  rewrite (reserve_slot_after_incr key max_rate p p1 c c1 t (inr running)) by done.
  fold s now_m tpr. unfold idle_longer_than_buffer.
  rewrite (proj2 (Z.ltb_ge _ _)) by done.
  unfold ret at 1. cbn [fst snd].
  rewrite check_max_sleep_passes; [by rewrite self_with_client, Hself|lia|].
  by rewrite self_with_client, Hself.
Qed.


(** What a normal return of the [try] block tells. *)
Lemma check_max_sleep_returns (key : string) (tpr need : Z) (p p' : process C)
    (d : Qc) :
  check_max_sleep key tpr need p = (inr d, p') →
  max_sleep_hit (self p) need = false
  ∧ d = (Py.float need / Py.float (clock_accuracy (self p)))%Qc.
Proof.
  unfold check_max_sleep, bind, get_self.
  destruct (max_sleep_hit (self p) need) eqn:Hhit.
  - destruct (on_client _ p) as [[e|z] p2]; [done|].
    unfold py_div. case_bool_decide; [done|]. unfold ret, raise. done.
  - unfold py_div. case_bool_decide; [done|]. unfold ret. by intros [= <- <-].
Qed.

Lemma reserve_slot_returns (key : string) (max_rate : Qc) (p p' : process C)
    (tpr need : Z) :
  reserve_slot key max_rate p = (inr (tpr, need), p') →
  0 ≤ need ∧ self p' = set_memcache_client (self p) (memcache_client (self p')).
Proof.
  unfold reserve_slot. unfold bind at 1. unfold get_self at 1.
  unfold bind at 1. destruct (mock_time p) as [r p1] eqn:Ht.
  destruct (mock_time_frame _ _ _ Ht) as ([t ->] & Hself & _).
  unfold bind at 1. unfold py_div at 1. case_bool_decide; [done|].
  unfold ret at 1. unfold bind at 1. unfold on_client at 1.
  destruct (memcache_client (self p1)) as [c|] eqn:Hc; [|done].
  destruct (incr c key _) as [[e|running] c1]; [done|].
  destruct (idle_longer_than_buffer _ _ _).
  - unfold bind, on_client, ret. rewrite self_with_client. cbn.
    destruct (set c1 key _) as [[e|b] c2]; [done|].
    intros [= <- <- <-]. split; [lia|]. cbn. by rewrite Hself.
  - unfold ret. intros [= <- <- <-]. split; [lia|]. cbn. by rewrite Hself.
Qed.

(** C10, as amended. When the [try] block of [_get_sleep_time] runs to its
    [return] (no rejection and no store error) under a clock accuracy that
    is not negative, [_get_sleep_time] returns that delay [d], [0 <= d], and
    [d] is strictly below [max_sleep_time_seconds]. The tolerance holds as
    the code evaluates it:
    [max_sleep_time_seconds * clock_accuracy - d * clock_accuracy] is
    strictly above [clock_accuracy * 0.01] when each of the three
    operations is rounded to binary64. *)
Theorem returned_delay_bounds (key : string) (max_rate : Qc) (p p' : process C)
    (d : Qc) :
  0 ≤ clock_accuracy (self p) →
  _get_sleep_time_try key max_rate p = (inr d, p') →
  let s := self p in
  _get_sleep_time key max_rate p = (inr d, p')
  ∧ (0 ≤ d)%Qc
  ∧ (d < max_sleep_time_seconds s)%Qc
  ∧ (Py.mul (Py.float (clock_accuracy s)) Py.one_percent
     < Py.sub (Py.mul (max_sleep_time_seconds s) (Py.float (clock_accuracy s)))
         (Py.fl (d * Py.float (clock_accuracy s))))%Qc.
Proof.
  intros Hca Htry s. split.
  { unfold _get_sleep_time, try_except. by rewrite Htry. }
  revert Htry. unfold _get_sleep_time_try. unfold bind at 1.
  destruct (reserve_slot key max_rate p) as [[e|[tpr need]] p1] eqn:Hres; [done|].
  destruct (reserve_slot_returns _ _ _ _ _ _ Hres) as [Hneed Hself].
  cbn [fst snd]. intros Hchk. apply check_max_sleep_returns in Hchk as [Hhit ->].
  rewrite Hself in Hhit |- *. cbn [clock_accuracy set_memcache_client].
  fold s.
  assert (max_sleep_hit s need = false) as Hhit' by exact Hhit.
  assert (clock_accuracy s ≠ 0) as Hca0.
  { intros Hz. revert Hhit. rewrite max_sleep_hit_clock_0; done. }
  assert (0 < Py.float (clock_accuracy s))%Qc as Hpos.
  { rewrite <- float_0. unfold Py.float. rewrite <- Z2Qc_inj_lt. fold s in Hca. lia. }
  assert (Py.float need / Py.float (clock_accuracy s)
          * Py.float (clock_accuracy s) = Py.float need)%Qc as Hunits.
  { field. by apply float_ne_0. }
  split; [|split].
  - unfold Qcdiv. apply Qcmult_nonneg_nonneg; [by apply float_nonneg|].
    apply Qclt_le_weak. by apply Qcinv_pos.
  - apply (Qcmult_lt_mono_pos_r _ _ (Py.float (clock_accuracy s))); [done|].
    rewrite Hunits. by apply below_ceiling.
  - rewrite Hunits. by apply max_sleep_hit_false.
Qed.

(** *** The policy resolver *)

Lemma unknown_action_raises (action : option string) (p : process C) :
  (∀ a, a ∈ recognized_actions → action ≠ Some a) →
  _get_limit_for_action action p = (inl (ValueError action), p).
Proof.
  intros Hunk. unfold _get_limit_for_action, bind, get_self.
  rewrite !bool_decide_false; [done|..];
    apply Hunk; unfold recognized_actions; set_solver.
Qed.

Lemma get_limit_for_action_frame (action : option string) (p : process C) :
  (∃ l, _get_limit_for_action action p = (inr l, p))
  ∨ _get_limit_for_action action p = (inl (ValueError action), p).
Proof.
  unfold _get_limit_for_action, bind, get_self.
  repeat case_bool_decide; eauto.
Qed.

(** C7. For an action outside the recognized set, [None] included,
    [_get_limit_for_action] raises [ValueError];
    [get_ratelimitable_key_tuples] logs it, does not raise, and returns the
    account bucket alone (or no bucket): no bucket of the action is added. *)
Theorem unknown_action_has_no_bucket
    (req : Request) (auth_tok : string) (action : option string)
    (p : process C) :
  (∀ a, a ∈ recognized_actions → action ≠ Some a) →
  _get_limit_for_action action p = (inl (ValueError action), p)
  ∧ get_ratelimitable_key_tuples req auth_tok action p =
      (inr (if bool_decide (method req ∈ limitable_methods)
               && Py.truthy (account_ratelimit (self p))
            then [(account_key auth_tok, account_ratelimit (self p))]
            else []),
       logged p (LogError (ValueError action))).
Proof.
  intros Hunk. split; [by apply unknown_action_raises|].
  unfold get_ratelimitable_key_tuples.
  unfold bind at 1. unfold get_self at 1.
  unfold bind at 1. unfold try_except.
  rewrite unknown_action_raises by done.
  unfold bind, log, ret.
  replace (Py.ltb (Py.float 0) (Py.float 0)) with false; [done|].
  symmetry. apply ltb_false. reflexivity.
Qed.

Lemma ltb_0_ne_0 (x : Qc) : Py.ltb (Py.float 0) x = true → x ≠ 0%Qc.
Proof.
  rewrite ltb_true, float_0. intros Hlt ->. by apply Qclt_not_eq in Hlt.
Qed.

Lemma truthy_ne_0 (x : Qc) : Py.truthy x = true → x ≠ 0%Qc.
Proof. unfold Py.truthy. rewrite negb_true_iff. apply bool_decide_eq_false. Qed.

(** Every bucket of the list has a rate other than zero, and building the
    list touches neither the middleware nor the clock. *)
Lemma key_tuples_rates (req : Request) (auth_tok : string)
    (action : option string) (p : process C) :
  ∃ keys p',
    get_ratelimitable_key_tuples req auth_tok action p = (inr keys, p')
    ∧ Forall (λ kr, kr.2 ≠ 0%Qc) keys
    ∧ self p' = self p ∧ time_ticker p' = time_ticker p
    ∧ time_override p' = time_override p.
Proof.
  unfold get_ratelimitable_key_tuples.
  unfold bind at 1. unfold get_self at 1.
  unfold bind at 1. unfold try_except.
  assert (Forall (λ kr : string * Qc, kr.2 ≠ 0%Qc)
            (if bool_decide (method req ∈ limitable_methods)
                && Py.truthy (account_ratelimit (self p))
             then ([] ++ [(account_key auth_tok, account_ratelimit (self p))])%list
             else [])) as Hacc.
  { destruct (bool_decide _); cbn [andb]; [|by constructor].
    destruct (Py.truthy _) eqn:Htr; constructor; [|done].
    by apply truthy_ne_0. }
  destruct (get_limit_for_action_frame action p) as [[l ->]| ->].
  - unfold ret. destruct (Py.ltb (Py.float 0) l) eqn:Hl.
    + eexists _, _. split; [done|]. split; [|done].
      apply Forall_app. split; [done|]. constructor; [|done].
      by apply ltb_0_ne_0.
    + eexists _, _. split; [done|]. done.
  - unfold bind, log, ret.
    replace (Py.ltb (Py.float 0) (Py.float 0)) with false.
    + eexists _, _. split; [done|]. done.
    + symmetry. apply ltb_false. reflexivity.
Qed.

(** *** Requests without a caller identity *)

Variable mapper_match : environ C → option string.

(** C8. A request without [x-auth-token] is handed to the application: the
    clock is neither read nor advanced, and the memcache client, whether
    the middleware already held it or adopts it from the environment, is
    left as it was. *)
Theorem no_identity_bypass (env : environ C) (p : process C) :
  HTTP_X_AUTH_TOKEN env = None →
  ∃ p',
    __call__ mapper_match env p = (inr (FromApp (app (self p) env)), p')
    ∧ time_ticker p' = time_ticker p
    ∧ time_override p' = time_override p
    ∧ memcache_client (self p') =
        match memcache_client (self p) with
        | Some c => Some c
        | None => glance_cache env
        end.
Proof.
  intros Htok. unfold __call__.
  unfold bind at 1. unfold get_self at 1.
  destruct (memcache_client (self p)) as [c|] eqn:Hc.
  - unfold bind at 1. unfold ret at 1.
    unfold bind at 1. unfold get_self at 1. rewrite Hc, Htok.
    unfold bind, log, ret. eexists. repeat split; done.
  - unfold cache_from_env. destruct (glance_cache env) as [c|] eqn:Henv.
    + unfold bind at 1. unfold bind at 1. unfold ret at 1. unfold put_self at 1.
      unfold bind at 1. unfold get_self at 1. cbn [self memcache_client set_memcache_client].
      rewrite Htok. unfold bind, log, ret. eexists. repeat split; done.
    + unfold bind at 1. unfold bind at 1. unfold bind at 1. unfold log at 1.
      unfold ret at 1. unfold put_self at 1.
      unfold bind at 1. unfold get_self at 1. cbn [self memcache_client set_memcache_client].
      unfold bind, log, ret. eexists. repeat split; done.
Qed.

End Generic.

(** ** The log threshold, and rejection inside the loop *)

Section Logging.

Context {C : Type} `{!MemcacheClient C}.

Lemma agree_ret {A : Type} (R : A → A → Prop) (a b : A) :
  R a b → agree (C:=C) R (ret a) (ret b).
Proof. intros HR p q Hpq. done. Qed.

Lemma agree_raise {A : Type} (R : A → A → Prop) (e : exn) :
  agree (C:=C) R (raise e) (raise e).
Proof. intros p q Hpq. done. Qed.

Lemma agree_bind {A B : Type} (RA : A → A → Prop) (RB : B → B → Prop)
    (m1 m2 : M C A) (k1 k2 : A → M C B) :
  agree RA m1 m2 →
  (∀ a b, RA a b → agree RB (k1 a) (k2 b)) →
  agree RB (bind m1 k1) (bind m2 k2).
Proof.
  intros Hm Hk p q Hpq. unfold bind.
  destruct (Hm p q Hpq) as [Hst Hres].
  destruct (m1 p) as [[e1|a] p'], (m2 q) as [[e2|b] q']; cbn in *; try done.
  by apply Hk.
Qed.

Lemma agree_try_except {A : Type} (R : A → A → Prop) (m1 m2 : M C A)
    (h1 h2 : exn → option (M C A)) :
  agree R m1 m2 →
  (∀ e, match h1 e, h2 e with
        | Some k1, Some k2 => agree R k1 k2
        | None, None => True
        | _, _ => False
        end) →
  agree R (try_except m1 h1) (try_except m2 h2).
Proof.
  intros Hm Hh p q Hpq. unfold try_except.
  destruct (Hm p q Hpq) as [Hst Hres].
  destruct (m1 p) as [[e1|a] p'], (m2 q) as [[e2|b] q']; cbn in *; try done.
  subst e2. specialize (Hh e1).
  destruct (h1 e1), (h2 e1); try done. by apply Hh.
Qed.

Lemma agree_get_self : agree (C:=C) same_but_log_threshold get_self get_self.
Proof. intros p q Hpq. split; [done|]. apply Hpq. Qed.

Lemma agree_log_l (r : log_record) : agree (C:=C) eq (log r) (ret tt).
Proof. intros p q Hpq. done. Qed.

Lemma agree_log (r1 r2 : log_record) : agree (C:=C) eq (log r1) (log r2).
Proof. intros p q Hpq. done. Qed.

Lemma agree_log_r (r : log_record) : agree (C:=C) eq (ret tt) (log r).
Proof. intros p q Hpq. done. Qed.

Lemma agree_mock_sleep (x : Qc) : agree (C:=C) eq (mock_sleep x) (mock_sleep x).
Proof.
  intros p q (Hs & Ht & Ho). split; [|done].
  split; [exact Hs|]. split; [cbn; by rewrite Ht|exact Ho].
Qed.

Lemma agree_mock_time : agree (C:=C) eq mock_time mock_time.
Proof.
  intros p q (Hs & Ht & Ho). unfold mock_time. rewrite <- Ho, <- Ht.
  destruct (time_override p) as [|[cur|] rest] eqn:Hov; cbn; repeat split; cbn;
    congruence.
Qed.

Lemma agree_py_div (x y : Qc) : agree (C:=C) eq (py_div x y) (py_div x y).
Proof. unfold py_div. case_bool_decide; [apply agree_raise|by apply agree_ret]. Qed.

Lemma same_but_log_threshold_client (s1 s2 : RateLimitMiddleware C) :
  same_but_log_threshold s1 s2 → memcache_client s1 = memcache_client s2.
Proof. intros Hs. apply (f_equal memcache_client Hs). Qed.

Lemma same_but_log_threshold_set_client (s1 s2 : RateLimitMiddleware C) (c : option C) :
  same_but_log_threshold s1 s2 →
  same_but_log_threshold (set_memcache_client s1 c) (set_memcache_client s2 c).
Proof.
  unfold same_but_log_threshold, set_log_sleep_time_seconds, set_memcache_client.
  cbn. intros [= -> _ -> -> -> -> -> -> -> -> ->]. done.
Qed.

Lemma agree_on_client {A : Type} (f : C → (exn + A) * C) :
  agree eq (on_client f) (on_client f).
Proof.
  intros p q (Hs & Ht & Ho). unfold on_client.
  rewrite <- (same_but_log_threshold_client _ _ Hs).
  destruct (memcache_client (self p)) as [c|]; [|done].
  destruct (f c) as [[e|a] c']; cbn;
    (split; [|done]); repeat split; cbn; try done;
    by apply same_but_log_threshold_set_client.
Qed.

Lemma same_but_log_threshold_fields (s1 s2 : RateLimitMiddleware C) :
  same_but_log_threshold s1 s2 →
  clock_accuracy s1 = clock_accuracy s2
  ∧ rate_buffer_seconds s1 = rate_buffer_seconds s2
  ∧ max_sleep_time_seconds s1 = max_sleep_time_seconds s2
  ∧ account_ratelimit s1 = account_ratelimit s2
  ∧ image_list s1 = image_list s2
  ∧ image_download s1 = image_download s2
  ∧ image_register s1 = image_register s2
  ∧ image_upload s1 = image_upload s2
  ∧ image_update s1 = image_update s2.
Proof.
  intros Hs. repeat split.
  - apply (f_equal clock_accuracy Hs).
  - apply (f_equal rate_buffer_seconds Hs).
  - apply (f_equal max_sleep_time_seconds Hs).
  - apply (f_equal account_ratelimit Hs).
  - apply (f_equal image_list Hs).
  - apply (f_equal image_download Hs).
  - apply (f_equal image_register Hs).
  - apply (f_equal image_upload Hs).
  - apply (f_equal image_update Hs).
Qed.

Ltac same_fields Hs :=
  let Hca := fresh "Hca" in
  let Hbuf := fresh "Hbuf" in
  let Hmax := fresh "Hmax" in
  let Hacc := fresh "Hacc" in
  let Hl := fresh "Hl" in
  let Hd := fresh "Hd" in
  let Hr := fresh "Hr" in
  let Hup := fresh "Hup" in
  let Hu := fresh "Hu" in
  destruct (same_but_log_threshold_fields _ _ Hs)
    as (Hca & Hbuf & Hmax & Hacc & Hl & Hd & Hr & Hup & Hu).

Ltac agree_step :=
  first
    [ apply agree_raise
    | apply agree_ret; try reflexivity
    | apply agree_log
    | apply agree_mock_sleep
    | apply agree_mock_time
    | apply agree_py_div
    | apply agree_on_client
    | eapply agree_bind; [apply agree_get_self|]
    | eapply agree_bind; [apply agree_mock_time|]
    | eapply agree_bind; [apply agree_py_div|]
    | eapply agree_bind; [apply agree_on_client|]
    | eapply agree_bind; [apply agree_log|]
    | eapply agree_bind; [apply agree_mock_sleep|] ].

Lemma agree_reserve_slot (key : string) (max_rate : Qc) :
  agree eq (reserve_slot key max_rate) (reserve_slot key max_rate).
Proof.
  unfold reserve_slot. agree_step. intros s1 s2 Hs. same_fields Hs.
  agree_step. intros t ? <-. rewrite Hca. agree_step. intros x ? <-.
  agree_step. intros running ? <-.
  unfold idle_longer_than_buffer. rewrite Hbuf, Hca.
  case_match; [|agree_step].
  agree_step. intros ? ? _. agree_step.
Qed.

Lemma agree_check_max_sleep (key : string) (tpr need : Z) :
  agree eq (check_max_sleep key tpr need) (check_max_sleep key tpr need).
Proof.
  unfold check_max_sleep. agree_step. intros s1 s2 Hs. same_fields Hs.
  unfold max_sleep_hit. rewrite Hmax, Hca.
  case_match; [|agree_step].
  agree_step. intros ? ? _. agree_step. intros d ? <-. agree_step.
Qed.

Lemma agree_get_sleep_time (key : string) (max_rate : Qc) :
  agree eq (_get_sleep_time key max_rate) (_get_sleep_time key max_rate).
Proof.
  unfold _get_sleep_time. apply agree_try_except.
  - unfold _get_sleep_time_try. eapply agree_bind; [apply agree_reserve_slot|].
    intros r ? <-. apply agree_check_max_sleep.
  - intros [| | | |]; done.
Qed.

Lemma agree_check_bucket (key : string) (max_rate : Qc) :
  agree eq (check_bucket key max_rate) (check_bucket key max_rate).
Proof.
  unfold check_bucket. apply agree_try_except.
  - eapply agree_bind; [apply agree_get_sleep_time|]. intros d ? <-.
    agree_step. intros s1 s2 Hs.
    eapply agree_bind with (RA := eq).
    { repeat case_match; first [apply agree_log|apply agree_log_l
                               |apply agree_log_r|by apply agree_ret]. }
    intros ? ? _. eapply agree_bind with (RA := eq).
    { case_match; agree_step. }
    intros ? ? _. agree_step.
  - intros [| | | |]; done.
Qed.

Lemma agree_handle_limits (limits : list (string * Qc)) :
  agree eq (handle_limits limits) (handle_limits limits).
Proof.
  induction limits as [|[key max_rate] rest IH]; cbn [handle_limits].
  - agree_step.
  - eapply agree_bind; [apply agree_check_bucket|]. intros r ? <-.
    destruct r; [agree_step|apply IH].
Qed.

Lemma agree_get_limit_for_action (action : option string) :
  agree (C:=C) eq (_get_limit_for_action action) (_get_limit_for_action action).
Proof.
  unfold _get_limit_for_action. agree_step. intros s1 s2 Hs. same_fields Hs.
  rewrite Hl, Hd, Hr, Hup, Hu. case_match; agree_step.
Qed.

Lemma agree_get_ratelimitable_key_tuples
    (req : Request) (auth_tok : string) (action : option string) :
  agree (C:=C) eq (get_ratelimitable_key_tuples req auth_tok action)
           (get_ratelimitable_key_tuples req auth_tok action).
Proof.
  unfold get_ratelimitable_key_tuples. agree_step. intros s1 s2 Hs.
  same_fields Hs. rewrite Hacc.
  eapply agree_bind with (RA := eq).
  - apply agree_try_except; [apply agree_get_limit_for_action|].
    intros [| | | |]; done.
  - intros limit ? <-. agree_step.
Qed.

Lemma agree_handle_ratelimit
    (req : Request) (auth_tok : string) (action : option string) :
  agree eq (handle_ratelimit req auth_tok action)
           (handle_ratelimit req auth_tok action).
Proof.
  unfold handle_ratelimit. agree_step. intros s1 s2 Hs.
  rewrite (same_but_log_threshold_client _ _ Hs).
  case_match.
  - eapply agree_bind; [apply agree_get_ratelimitable_key_tuples|].
    intros limits ? <-. apply agree_handle_limits.
  - eapply agree_bind with (RA := eq); [apply agree_log|].
    intros ? ? _. agree_step.
Qed.

(** C9. Two runs of [handle_ratelimit] on the same request, store and clock
    that differ only in [log_sleep_time_seconds] give the same decision (or
    the same exception), leave the clock at the same time, so the same
    total was slept, and leave the same client: the threshold decides only
    what is logged. *)
Theorem log_threshold_is_observability_only
    (req : Request) (auth_tok : string) (action : option string)
    (p : process C) (x : Qc) :
  let run1 := handle_ratelimit req auth_tok action p in
  let run2 :=
    handle_ratelimit req auth_tok action (with_log_sleep_time_seconds p x) in
  run1.1 = run2.1
  ∧ time_ticker run1.2 = time_ticker run2.2
  ∧ time_override run1.2 = time_override run2.2
  ∧ memcache_client (self run1.2) = memcache_client (self run2.2).
Proof.
  intros run1 run2.
  destruct (agree_handle_ratelimit req auth_tok action p
              (with_log_sleep_time_seconds p x)) as [(Hs & Ht & Ho) Hres].
  { by repeat split. }
  fold run1 run2 in Hs, Ht, Ho, Hres.
  split; [|by auto using same_but_log_threshold_client].
  destruct run1 as [[e1|r1] p1], run2 as [[e2|r2] p2]; cbn in *; by subst.
Qed.

(** *** Rejection inside the loop *)

Lemma handle_limits_cons (key : string) (max_rate : Qc)
    (rest : list (string * Qc)) (p : process C) :
  handle_limits ((key, max_rate) :: rest) p =
    match check_bucket key max_rate p with
    | (inr None, p') => handle_limits rest p'
    | (inr (Some resp), p') => (inr (Some resp), p')
    | (inl e, p') => (inl e, p')
    end.
Proof.
  cbn [handle_limits]. unfold bind.
  by destruct (check_bucket key max_rate p) as [[e|[resp|]] p'].
Qed.

Lemma check_bucket_reject (key : string) (max_rate d : Qc) (p p' : process C) :
  _get_sleep_time key max_rate p = (inl (MaxSleepTimeHitError d), p') →
  check_bucket key max_rate p =
    (inr (Some error_resp),
     logged p' (LogWarningReturning HTTP_TOO_MANY_REQUESTS key)).
Proof.
  intros Hrej. unfold check_bucket, try_except. unfold bind at 1.
  by rewrite Hrej.
Qed.

(** [_get_sleep_time] reads the clock and never advances it. *)
Lemma get_sleep_time_keeps_ticker (key : string) (max_rate : Qc) (p : process C) :
  time_ticker (_get_sleep_time key max_rate p).2 = time_ticker p.
Proof.
  unfold _get_sleep_time, try_except, _get_sleep_time_try.
  unfold bind at 1. unfold reserve_slot.
  unfold bind at 1. unfold get_self at 1.
  unfold bind at 1. destruct (mock_time p) as [r p1] eqn:Ht.
  destruct (mock_time_frame _ _ _ Ht) as ([t ->] & _ & <- & _).
  unfold check_max_sleep, py_div, bind, on_client, get_self, raise, ret, log.
  repeat (case_match; simplify_eq/=; try done).
Qed.

(** C4, as amended. When the buckets [pre] all pass and the next bucket
    raises [MaxSleepTimeHitError], the loop returns the 429 response from
    the process that bucket left, whatever buckets [post] follow: they are
    neither checked nor incremented. The delays of [pre] have been slept by
    then: the clock stays where [pre] left it. *)
Theorem rejection_stops_evaluation
    (pre post : list (string * Qc)) (key : string) (max_rate d : Qc)
    (p p1 p2 : process C) :
  handle_limits pre p = (inr None, p1) →
  _get_sleep_time key max_rate p1 = (inl (MaxSleepTimeHitError d), p2) →
  handle_limits (pre ++ (key, max_rate) :: post)%list p =
    (inr (Some error_resp),
     logged p2 (LogWarningReturning HTTP_TOO_MANY_REQUESTS key))
  ∧ time_ticker p2 = time_ticker p1.
Proof.
  intros Hpre Hrej. split.
  - revert p Hpre. induction pre as [|[k r] pre IH]; intros p Hpre.
    + cbn in Hpre. injection Hpre as <-. cbn [List.app].
      rewrite handle_limits_cons. by rewrite (check_bucket_reject _ _ _ _ _ Hrej).
    + cbn [List.app]. rewrite handle_limits_cons in Hpre |- *.
      destruct (check_bucket k r p) as [[e|[resp|]] p'] eqn:Hchk; try done.
      by apply IH.
  - pose proof (get_sleep_time_keeps_ticker key max_rate p1) as Hk.
    by rewrite Hrej in Hk.
Qed.

End Logging.

(** ** Fail-open when the store is unavailable *)

Section FailOpen.

Context {C : Type} `{!MemcacheClient C}.

(** [incr] raises [MemcacheConnectionError]: logged, and a delay of zero. *)
Lemma get_sleep_time_incr_raises (key : string) (max_rate : Qc)
    (p p1 : process C) (c c1 : C) (t : Qc) (msg : string) :
  max_rate ≠ 0%Qc →
  memcache_client (self p) = Some c →
  mock_time p = (inr t, p1) →
  incr c key (Py.round (Py.float (clock_accuracy (self p)) / max_rate)%Qc)
    = (inl (MemcacheConnectionError msg), c1) →
  _get_sleep_time key max_rate p =
    (inr (Py.float 0),
     logged (with_client p1 c1) (LogError (MemcacheConnectionError msg))).
Proof.
  intros HR Hc Ht Hincr.
  unfold _get_sleep_time, try_except, _get_sleep_time_try. unfold bind at 1.
  by rewrite (reserve_slot_after_incr key max_rate p p1 c c1 t
                (inl (MemcacheConnectionError msg))).
Qed.

Section Failing.

Variable failing : C → Prop.
Hypothesis Hfailing : always_unavailable failing.

Lemma check_bucket_failing (key : string) (max_rate : Qc) (p : process C) :
  max_rate ≠ 0%Qc →
  client_in failing p →
  ∃ p', check_bucket key max_rate p = (inr None, p')
        ∧ client_in failing p' ∧ time_ticker p' = time_ticker p.
Proof.
  intros HR (c & Hc & Hf).
  destruct (mock_time p) as [r p1] eqn:Ht.
  destruct (mock_time_frame _ _ _ Ht) as ([t ->] & Hself & Htick & _).
  destruct (Hfailing c key
              (Py.round (Py.float (clock_accuracy (self p)) / max_rate)%Qc) Hf)
    as (msg & c1 & Hincr & Hf1).
  unfold check_bucket, try_except. unfold bind at 1.
  rewrite (get_sleep_time_incr_raises key max_rate p p1 c c1 t msg) by done.
  unfold bind at 1. unfold get_self at 1.
  replace (Py.ltb (Py.float 0) (Py.float 0)) with false
    by (symmetry; apply ltb_false; reflexivity).
  unfold bind, log, ret.
  destruct (_ && _); eexists; (split; [done|]); (split; [|done]);
    exists c1; done.
Qed.

Lemma handle_limits_failing (limits : list (string * Qc)) (p : process C) :
  Forall (λ kr, kr.2 ≠ 0%Qc) limits →
  client_in failing p →
  ∃ p', handle_limits limits p = (inr None, p')
        ∧ client_in failing p' ∧ time_ticker p' = time_ticker p.
Proof.
  intros Hrates. revert p.
  induction Hrates as [|[key max_rate] rest HR _ IH]; intros p Hin.
  - eexists. split; done.
  - destruct (check_bucket_failing key max_rate p HR Hin)
      as (p1 & Hchk & Hin1 & Htick).
    destruct (IH p1 Hin1) as (p' & Hrest & Hin' & Htick').
    exists p'. rewrite handle_limits_cons, Hchk.
    split; [done|]. split; [done|congruence].
Qed.

Lemma handle_ratelimit_failing
    (req : Request) (auth_tok : string) (action : option string)
    (p : process C) :
  client_in failing p →
  ∃ p', handle_ratelimit req auth_tok action p = (inr None, p')
        ∧ client_in failing p' ∧ time_ticker p' = time_ticker p.
Proof.
  intros (c & Hc & Hf). unfold handle_ratelimit.
  unfold bind at 1. unfold get_self at 1. rewrite Hc.
  destruct (key_tuples_rates req auth_tok action p)
    as (keys & p1 & Hkeys & Hrates & Hself & Htick & _).
  unfold bind. rewrite Hkeys.
  destruct (handle_limits_failing keys p1 Hrates) as (p' & Hl & Hin' & Ht').
  { exists c. by rewrite Hself. }
  exists p'. split; [done|]. split; [done|congruence].
Qed.

End Failing.


End FailOpen.

(** ** Buckets in the tests' [FakeMemcache] *)

Lemma fake_incr_ok (m : Fake.FakeMemcache) (key : string) (delta : Z) :
  Fake.error_on_incr m = false →
  Fake.init_incr_return_neg m = false →
  0 ≤ Fake.value m key + delta →
  Fake.incr m key delta =
    (inr (Fake.value m key + delta),
     Fake.with_store m (<[key := Fake.value m key + delta]> (Fake.store m))).
Proof.
  intros He Hi Hv. unfold Fake.incr. rewrite He, Hi. fold (Fake.value m key).
  by rewrite (proj2 (Z.ltb_ge _ _)) by done.
Qed.

Lemma fake_incr_flags (m m1 : Fake.FakeMemcache) (key : string) (delta : Z)
    (r : exn + Z) :
  Fake.incr m key delta = (r, m1) → Fake.error_on_incr m1 = Fake.error_on_incr m.
Proof.
  unfold Fake.incr. repeat case_match; by intros [= <- <-].
Qed.

Lemma value_with_store_insert (m : Fake.FakeMemcache) (key : string) (v : Z) :
  Fake.value (Fake.with_store m (<[key := v]> (Fake.store m))) key = v.
Proof. unfold Fake.value. cbn. by rewrite lookup_insert_eq. Qed.

Lemma float_0_div (x : Qc) : (Py.float 0 / x)%Qc = Py.float 0.
Proof. rewrite float_0. unfold Qcdiv. ring. Qed.

(** What [_get_sleep_time] returns is what its [try] block returned, or the
    [0] of the handler. *)
Lemma get_sleep_time_returns {C : Type} `{!MemcacheClient C}
    (key : string) (max_rate : Qc) (p p' : process C) (d : Qc) :
  _get_sleep_time key max_rate p = (inr d, p') →
  _get_sleep_time_try key max_rate p = (inr d, p') ∨ d = Py.float 0.
Proof.
  unfold _get_sleep_time, try_except.
  destruct (_get_sleep_time_try key max_rate p) as [[e|d'] p1]; [|by left].
  destruct e; try done. unfold bind, log, ret. intros [= <- _]. by right.
Qed.

(** The idle branch on the [FakeMemcache]. *)
Lemma get_sleep_time_idle (key : string) (max_rate : Qc)
    (p p1 : process Fake.FakeMemcache) (m m1 : Fake.FakeMemcache) (t : Qc) (running : Z) :
  max_rate ≠ 0%Qc →
  memcache_client (self p) = Some m →
  mock_time p = (inr t, p1) →
  let s := self p in
  let now_m := Py.round (t * Py.float (clock_accuracy s))%Qc in
  let tpr := Py.round (Py.float (clock_accuracy s) / max_rate)%Qc in
  Fake.incr m key tpr = (inr running, m1) →
  rate_buffer_seconds s * clock_accuracy s < now_m - running →
  let m2 := Fake.with_store m1 (<[key := now_m + tpr]> (Fake.store m1)) in
  reserve_slot key max_rate p = (inr (tpr, 0), with_client p1 m2)
  ∧ Fake.value m2 key = now_m + tpr
  ∧ (max_sleep_hit s 0 = false →
     _get_sleep_time key max_rate p = (inr (Py.float 0), with_client p1 m2))
  ∧ (∀ d p', _get_sleep_time key max_rate p = (inr d, p') → d = Py.float 0).
Proof.
  intros HR Hm Ht s now_m tpr Hincr Hidle m2.
  destruct (mock_time_frame _ _ _ Ht) as (_ & Hself & _).
  assert (reserve_slot key max_rate p = (inr (tpr, 0), with_client p1 m2))
    as Hres.
  { rewrite (reserve_slot_after_incr key max_rate p p1 m m1 t (inr running))
      by done.
    fold s now_m tpr. unfold idle_longer_than_buffer.
    rewrite (proj2 (Z.ltb_lt _ _)) by done. done. }
  split; [done|]. split; [apply value_with_store_insert|]. split.
  - intros Hpass. unfold _get_sleep_time, try_except, _get_sleep_time_try.
    unfold bind at 1. rewrite Hres. cbn [fst snd].
    rewrite check_max_sleep_passes; [|done|by rewrite self_with_client, Hself].
    by rewrite float_0_div.
  - intros d p' Hret. apply get_sleep_time_returns in Hret as [Htry|Hd]; [|done].
    revert Htry. unfold _get_sleep_time_try. unfold bind at 1. rewrite Hres.
    cbn [fst snd]. intros Hchk. apply check_max_sleep_returns in Hchk as [_ ->].
    apply float_0_div.
Qed.


Lemma round_nonneg (x : Qc) : (0 ≤ x)%Qc → 0 ≤ Py.round x.
Proof.
  intros Hx. unfold Py.round. rewrite (proj2 (leb_true _ _)) by done.
  assert (0 ≤ x + Q2Qc (1 # 2))%Qc as Hh.
  { apply Qcplus_nonneg_nonneg; [done|]. by apply Qclt_le_weak. }
  change 0 with (Qfloor 0). by apply Qfloor_resp_le.
Qed.

Lemma time_per_request_nonneg {C : Type} (s : RateLimitMiddleware C)
    (max_rate : Qc) :
  0 < clock_accuracy s → (0 < max_rate)%Qc →
  0 ≤ Py.round (Py.float (clock_accuracy s) / max_rate)%Qc.
Proof.
  intros Hca HR. apply round_nonneg. unfold Qcdiv.
  apply Qcmult_nonneg_nonneg; [apply float_nonneg; lia|].
  apply Qclt_le_weak. by apply Qcinv_pos.
Qed.


(** ** Rounding *)

Lemma Qfloor_unique (q : Q) (z : Z) :
  (inject_Z z <= q)%Q → (q < inject_Z (z + 1))%Q → Qfloor q = z.
Proof.
  intros Hle Hlt.
  pose proof (Qfloor_le q) as Hf. pose proof (Qlt_floor q) as Hf'.
  assert (inject_Z (Qfloor q) < inject_Z (z + 1))%Q as H1 by lra.
  assert (inject_Z z < inject_Z (Qfloor q + 1))%Q as H2 by lra.
  rewrite <- Zlt_Qlt in H1, H2. lia.
Qed.

Lemma Qfloor_add_Z (q : Q) (n : Z) : Qfloor (q + inject_Z n) = Qfloor q + n.
Proof.
  apply Qfloor_unique.
  - rewrite inject_Z_plus. pose proof (Qfloor_le q). lra.
  - replace (Qfloor q + n + 1) with ((Qfloor q + 1) + n) by lia.
    rewrite inject_Z_plus. pose proof (Qlt_floor q). lra.
Qed.

Lemma this_float (n : Z) : this (Py.float n) = inject_Z n.
Proof. done. Qed.

Lemma round_of_nonneg (x : Qc) :
  (0 ≤ x)%Qc → Py.round x = Qfloor (x + (1 # 2))%Q.
Proof.
  intros Hx. unfold Py.round. rewrite (proj2 (leb_true _ _)) by done.
  cbn [this Qcplus Q2Qc]. by rewrite !Qred_correct.
Qed.

Lemma round_add_int (x : Qc) (n : Z) :
  (0 ≤ x)%Qc → 0 ≤ n → Py.round (x + Py.float n)%Qc = Py.round x + n.
Proof.
  intros Hx Hn.
  rewrite !round_of_nonneg; [|done|].
  - cbn [this Qcplus Q2Qc]. rewrite Qred_correct, this_float.
    rewrite <- Qfloor_add_Z. apply Qfloor_comp. ring.
  - apply Qcplus_nonneg_nonneg; [done|by apply float_nonneg].
Qed.

Lemma round_float (n : Z) : 0 ≤ n → Py.round (Py.float n) = n.
Proof.
  intros Hn. rewrite round_of_nonneg by by apply float_nonneg.
  rewrite this_float. apply Qfloor_unique.
  - lra.
  - rewrite inject_Z_plus. change (inject_Z 1) with 1%Q. lra.
Qed.

(** Rounding moves a non-negative number by at most one half. *)
Lemma round_close (x : Qc) :
  (0 ≤ x)%Qc →
  (x - Q2Qc (1 # 2) ≤ Py.float (Py.round x))%Qc
  ∧ (Py.float (Py.round x) ≤ x + Q2Qc (1 # 2))%Qc.
Proof.
  intros Hx. rewrite round_of_nonneg by done.
  pose proof (Qfloor_le (x + (1 # 2))) as Hf.
  pose proof (Qlt_floor (x + (1 # 2))) as Hf'.
  rewrite inject_Z_plus in Hf'. change (inject_Z 1) with 1%Q in Hf'.
  unfold Qcle. cbn [this Qcplus Qcminus Qcopp Q2Qc]. rewrite this_float.
  rewrite !Qred_correct. split; lra.
Qed.

Section Spacing.

Variable s0 : RateLimitMiddleware Fake.FakeMemcache.
Variable key : string.
Variable max_rate : Qc.

Let ca : Z := clock_accuracy s0.
Let tpr : Z := Py.round (Py.float ca / max_rate)%Qc.

Hypothesis Hca : 0 < ca.
Hypothesis Hrate : (0 < max_rate)%Qc.
Hypothesis Hbuf : 0 ≤ rate_buffer_seconds s0.
Hypothesis Hpass : max_sleep_hit s0 tpr = false.

Lemma spacing_tpr_nonneg : 0 ≤ tpr.
Proof. by apply time_per_request_nonneg. Qed.

Lemma spacing_ca_ne_0 : Py.float ca ≠ 0%Qc.
Proof. apply float_ne_0. lia. Qed.

Lemma mock_time_not_overridden {C : Type} (p : process C) :
  time_override p = [] → mock_time p = (inr (time_ticker p), p).
Proof. intros Ho. unfold mock_time. by rewrite Ho. Qed.

Lemma now_nonneg (now : Qc) : (0 ≤ now)%Qc → 0 ≤ Py.round (now * Py.float ca)%Qc.
Proof.
  intros Hnow. apply round_nonneg.
  apply Qcmult_nonneg_nonneg; [done|]. apply float_nonneg. lia.
Qed.

Lemma now_after_sleep (now : Qc) :
  (0 ≤ now)%Qc →
  Py.round ((now + Py.float tpr / Py.float ca) * Py.float ca)%Qc
  = Py.round (now * Py.float ca)%Qc + tpr.
Proof.
  intros Hnow.
  replace ((now + Py.float tpr / Py.float ca) * Py.float ca)%Qc
    with (now * Py.float ca + Py.float tpr)%Qc
    by (field; apply spacing_ca_ne_0).
  apply round_add_int; [|apply spacing_tpr_nonneg].
  apply Qcmult_nonneg_nonneg; [done|]. apply float_nonneg. lia.
Qed.

(** A request on a bucket one slot ahead waits one spacing and leaves the
    bucket one slot ahead. *)
Lemma busy_request_step (now : Qc) (p : process Fake.FakeMemcache) :
  (0 ≤ now)%Qc →
  one_slot_ahead s0 key max_rate now p →
  ∃ p', check_bucket key max_rate p = (inr None, p')
        ∧ one_slot_ahead s0 key max_rate
            (now + Py.float tpr / Py.float ca)%Qc p'.
Proof.
  intros Hnow (m & Hself & He & Hi & Ho & Htick & Hval).
  fold ca tpr in Hval.
  pose proof spacing_tpr_nonneg as Htpr.
  pose proof (now_nonneg now Hnow) as Hnow_m.
  set (now_m := Py.round (now * Py.float ca)%Qc) in *.
  set (m1 := Fake.with_store m (<[key := now_m + tpr + tpr]> (Fake.store m))).
  assert (_get_sleep_time key max_rate p =
            (inr (Py.float tpr / Py.float ca)%Qc, with_client p m1)) as Hget.
  { pose proof (get_sleep_time_busy key max_rate p p m m1 now
                  (now_m + tpr + tpr)) as Hbusy.
    rewrite Hself in Hbusy. cbn [clock_accuracy rate_buffer_seconds
      set_memcache_client memcache_client] in Hbusy.
    fold ca tpr now_m in Hbusy.
    replace (Z.max (now_m + tpr + tpr - now_m - tpr) 0) with tpr in Hbusy by lia.
    apply Hbusy; try done.
    - rewrite <- Htick. by apply mock_time_not_overridden.
    - change (Fake.incr m key tpr = (inr (now_m + tpr + tpr), m1)).
      rewrite fake_incr_ok; [|done|done|lia]. unfold m1. by rewrite Hval.
    - nia. }
  unfold check_bucket, try_except. unfold bind at 1. rewrite Hget.
  unfold bind at 1. unfold get_self at 1.
  assert (∃ lg, ((if Py.truthy (log_sleep_time_seconds (self (with_client p m1)))
                  && Py.ltb (log_sleep_time_seconds (self (with_client p m1)))
                       (Py.float tpr / Py.float ca)%Qc
               then log (LogWarningSleep (Py.float tpr / Py.float ca)%Qc key)
               else ret tt) (with_client p m1))
          = (inr tt, {| self := self (with_client p m1);
                        time_ticker := time_ticker p;
                        time_override := time_override p; LOG := lg |}))
    as [lg Hlog].
  { destruct (_ && _); eexists; reflexivity. }
  unfold bind at 1. rewrite Hlog. clear Hlog.
  unfold bind, mock_sleep, ret.
  destruct (Py.ltb (Py.float 0) (Py.float tpr / Py.float ca)%Qc) eqn:Hpos.
  - eexists. split; [done|]. exists m1. cbn.
    rewrite Hself. repeat split; try done.
    + by rewrite Htick.
    + fold ca tpr. rewrite now_after_sleep by done. fold now_m.
      unfold m1. by rewrite value_with_store_insert.
  - eexists. split; [done|]. exists m1. cbn.
    rewrite Hself.
    assert (tpr = 0) as Htpr0.
    { apply ltb_false in Hpos. rewrite float_0 in Hpos.
      destruct (decide (tpr = 0)) as [|Hne]; [done|]. exfalso.
      assert (0 < Py.float tpr / Py.float ca)%Qc as Hgt; [|by apply Qclt_not_le in Hgt].
      unfold Qcdiv. apply Qcmult_pos_pos.
      - rewrite <- float_0. unfold Py.float. rewrite <- Z2Qc_inj_lt. lia.
      - apply Qcinv_pos. rewrite <- float_0. unfold Py.float.
        rewrite <- Z2Qc_inj_lt. lia. }
    repeat split; try done.
    + rewrite Htick, Htpr0, float_0_div, float_0. ring.
    + fold ca tpr. rewrite now_after_sleep by done. fold now_m.
      unfold m1. by rewrite value_with_store_insert.
Qed.

Hypothesis Hpass0 : max_sleep_hit s0 0 = false.

(** The first request on a fresh bucket, when the clock reads zero or the
    bucket counts as idle, is not delayed and puts the bucket one slot
    ahead. *)
Lemma first_request_step (now : Qc) (p : process Fake.FakeMemcache) :
  (0 ≤ now)%Qc →
  Py.round (now * Py.float ca)%Qc = 0
  ∨ rate_buffer_seconds s0 * ca < Py.round (now * Py.float ca)%Qc - tpr →
  fresh_bucket s0 key now p →
  ∃ p', check_bucket key max_rate p = (inr None, p')
        ∧ time_ticker p' = time_ticker p
        ∧ one_slot_ahead s0 key max_rate now p'.
Proof.
  intros Hnow Hstart (m & Hself & He & Hi & Ho & Htick & Hfresh).
  pose proof spacing_tpr_nonneg as Htpr.
  pose proof (now_nonneg now Hnow) as Hnow_m.
  set (now_m := Py.round (now * Py.float ca)%Qc) in *.
  assert (max_rate ≠ 0%Qc) as HR0.
  { intros ->. by apply Qclt_not_eq in Hrate. }
  assert (Fake.value m key = 0) as Hval by (unfold Fake.value; by rewrite Hfresh).
  set (m1 := Fake.with_store m (<[key := tpr]> (Fake.store m))).
  assert (Fake.incr m key tpr = (inr tpr, m1)) as Hincr.
  { rewrite fake_incr_ok; [|done|done|lia]. unfold m1. by rewrite Hval. }
  assert (mock_time p = (inr now, p)) as Ht.
  { rewrite <- Htick. by apply mock_time_not_overridden. }
  assert (∃ m2, _get_sleep_time key max_rate p = (inr (Py.float 0), with_client p m2)
                ∧ Fake.error_on_incr m2 = false
                ∧ Fake.init_incr_return_neg m2 = false
                ∧ Fake.value m2 key = now_m + tpr) as (m2 & Hget & He2 & Hi2 & Hv2).
  { destruct (decide (rate_buffer_seconds s0 * ca < now_m - tpr)) as [Hidle|Hbusy].
    - pose proof (get_sleep_time_idle key max_rate p p m m1 now tpr HR0)
        as Hreset.
      rewrite Hself in Hreset. cbn [clock_accuracy rate_buffer_seconds
        set_memcache_client memcache_client] in Hreset.
      fold ca tpr now_m in Hreset.
      destruct Hreset as (_ & Hv & Hret & _); try done.
      eexists. split; [by apply Hret|]. done.
    - destruct Hstart as [Hzero|?]; [|done].
      pose proof (get_sleep_time_busy key max_rate p p m m1 now tpr) as Hb.
      rewrite Hself in Hb. cbn [clock_accuracy rate_buffer_seconds
        set_memcache_client memcache_client] in Hb.
      fold ca tpr now_m in Hb.
      replace (Z.max (tpr - now_m - tpr) 0) with 0 in Hb by lia.
      rewrite float_0_div in Hb.
      exists m1. split; [apply Hb; try done; lia|].
      split; [done|]. split; [done|].
      unfold m1. rewrite value_with_store_insert. lia. }
  unfold check_bucket, try_except. unfold bind at 1. rewrite Hget.
  unfold bind at 1. unfold get_self at 1.
  replace (Py.ltb (Py.float 0) (Py.float 0)) with false
    by (symmetry; apply ltb_false; reflexivity).
  unfold bind, log, ret.
  destruct (_ && _); eexists; (split; [done|]); (split; [done|]);
    exists m2; cbn; rewrite Hself; done.
Qed.

(** [n] such requests in a row. *)
Lemma busy_requests (n : nat) (now : Qc) (p : process Fake.FakeMemcache) :
  (0 ≤ now)%Qc →
  one_slot_ahead s0 key max_rate now p →
  ∃ p', repeat_call (check_bucket key max_rate) n p = (inr tt, p')
        ∧ one_slot_ahead s0 key max_rate
            (now + Py.float (Z.of_nat n) * (Py.float tpr / Py.float ca))%Qc p'.
Proof.
  assert (0 ≤ Py.float tpr / Py.float ca)%Qc as Hstep.
  { unfold Qcdiv. apply Qcmult_nonneg_nonneg;
      [apply float_nonneg, spacing_tpr_nonneg|].
    apply Qclt_le_weak, Qcinv_pos. rewrite <- float_0. unfold Py.float.
    rewrite <- Z2Qc_inj_lt. lia. }
  revert now p. induction n as [|n IH]; intros now p Hnow Hinv.
  - exists p. split; [done|].
    replace (now + Py.float (Z.of_nat 0) * (Py.float tpr / Py.float ca))%Qc
      with now; [done|].
    change (Z.of_nat 0) with 0. rewrite float_0. ring.
  - destruct (busy_request_step now p Hnow Hinv) as (p1 & Hchk & Hinv1).
    destruct (IH _ p1 (Qcplus_nonneg_nonneg _ _ Hnow Hstep) Hinv1)
      as (p' & Hrest & Hinv').
    exists p'. split.
    + cbn [repeat_call]. unfold bind at 1. by rewrite Hchk.
    + replace (now + Py.float (Z.of_nat (S n)) * (Py.float tpr / Py.float ca))%Qc
        with (now + Py.float tpr / Py.float ca
              + Py.float (Z.of_nat n) * (Py.float tpr / Py.float ca))%Qc; [done|].
      rewrite Nat2Z.inj_succ. unfold Z.succ, Py.float.
      rewrite Z2Qc_inj_add, Z2Qc_inj_1. ring.
Qed.

(** [N] requests in a row on a bucket that was never used: the first is
    not delayed, each later one by the rounded spacing. *)
Lemma sequential_requests (N : nat) (now : Qc) (p : process Fake.FakeMemcache) :
  (0 ≤ now)%Qc →
  Py.round (now * Py.float ca)%Qc = 0
  ∨ rate_buffer_seconds s0 * ca < Py.round (now * Py.float ca)%Qc - tpr →
  fresh_bucket s0 key now p →
  ∃ p1 p',
    check_bucket key max_rate p = (inr None, p1)
    ∧ time_ticker p1 = time_ticker p
    ∧ repeat_call (check_bucket key max_rate) (S N) p = (inr tt, p')
    ∧ time_ticker p' =
        (time_ticker p
         + Py.float (Z.of_nat N) * (Py.float tpr / Py.float ca))%Qc.
Proof.
  intros Hnow Hstart Hfresh.
  destruct (first_request_step now p Hnow Hstart Hfresh)
    as (p1 & Hfirst & Htick1 & Hinv).
  destruct (busy_requests N now p1 Hnow Hinv) as (p' & Hrest & Hinv').
  exists p1, p'. split; [done|]. split; [done|]. split.
  - cbn [repeat_call]. unfold bind at 1. by rewrite Hfirst.
  - destruct Hfresh as (m & _ & _ & _ & _ & Htick & _).
    destruct Hinv' as (m' & _ & _ & _ & _ & Htick' & _).
    by rewrite Htick', Htick.
Qed.

End Spacing.

(** The rounded spacing is within half a clock unit of the exact one. *)
Lemma spacing_error_bound (ca n : Z) (max_rate : Qc) :
  0 < ca → (0 < max_rate)%Qc → 0 ≤ n →
  let tpr := Py.round (Py.float ca / max_rate)%Qc in
  let half_unit := (Q2Qc (1 # 2) / Py.float ca)%Qc in
  (Py.float n / max_rate - Py.float n * half_unit
   ≤ Py.float n * (Py.float tpr / Py.float ca))%Qc
  ∧ (Py.float n * (Py.float tpr / Py.float ca)
     ≤ Py.float n / max_rate + Py.float n * half_unit)%Qc.
Proof.
  intros Hca HR Hn tpr half_unit.
  assert (Py.float ca ≠ 0%Qc) as Hca0 by (apply float_ne_0; lia).
  assert (max_rate ≠ 0%Qc) as HR0.
  { intros ->. by apply Qclt_not_eq in HR. }
  assert (0 < Py.float ca)%Qc as Hcapos.
  { rewrite <- float_0. unfold Py.float. rewrite <- Z2Qc_inj_lt. lia. }
  assert (0 ≤ Py.float ca / max_rate)%Qc as Hx.
  { unfold Qcdiv. apply Qcmult_nonneg_nonneg; [by apply Qclt_le_weak|].
    by apply Qclt_le_weak, Qcinv_pos. }
  assert (0 ≤ Py.float n / Py.float ca)%Qc as Hz.
  { unfold Qcdiv. apply Qcmult_nonneg_nonneg; [by apply float_nonneg|].
    by apply Qclt_le_weak, Qcinv_pos. }
  destruct (round_close _ Hx) as [Hlo Hhi]. fold tpr in Hlo, Hhi.
  apply (Qcmult_le_mono_nonneg_l _ _ _ Hz) in Hlo, Hhi.
  split.
  - replace (Py.float n / max_rate - Py.float n * half_unit)%Qc
      with (Py.float n / Py.float ca
            * (Py.float ca / max_rate - Q2Qc (1 # 2)))%Qc
      by (unfold half_unit; field; done).
    replace (Py.float n * (Py.float tpr / Py.float ca))%Qc
      with (Py.float n / Py.float ca * Py.float tpr)%Qc by (field; done).
    done.
  - replace (Py.float n / max_rate + Py.float n * half_unit)%Qc
      with (Py.float n / Py.float ca
            * (Py.float ca / max_rate + Q2Qc (1 # 2)))%Qc
      by (unfold half_unit; field; done).
    replace (Py.float n * (Py.float tpr / Py.float ca))%Qc
      with (Py.float n / Py.float ca * Py.float tpr)%Qc by (field; done).
    done.
Qed.


(** ** The properties at work on the set-ups of the tests *)


Lemma returned_delay_bounds_witness :
  _get_sleep_time tok_key (Py.float 5)
    (ceiling_process 10 5 (Q2Qc (21 # 100)) (Py.float 5) 2) =
    (inr (Py.float 2 / Py.float 10)%Qc,
     with_client (ceiling_process 10 5 (Q2Qc (21 # 100)) (Py.float 5) 2)
       (fake_with [(tok_key, 4)]))
  ∧ (0 ≤ Py.float 2 / Py.float 10)%Qc
  ∧ (Py.float 2 / Py.float 10 < Py.fl (Q2Qc (21 # 100)))%Qc
  ∧ (Py.mul (Py.float 10) Py.one_percent
     < Py.sub (Py.mul (Py.fl (Q2Qc (21 # 100))) (Py.float 10))
         (Py.fl (Py.float 2 / Py.float 10 * Py.float 10)))%Qc.
Proof.
  apply (returned_delay_bounds tok_key (Py.float 5)
           (ceiling_process 10 5 (Q2Qc (21 # 100)) (Py.float 5) 2)
           (with_client (ceiling_process 10 5 (Q2Qc (21 # 100)) (Py.float 5) 2)
              (fake_with [(tok_key, 4)]))
           (Py.float 2 / Py.float 10)%Qc).
  - vm_compute. discriminate.
  - vm_compute. reflexivity.
Defined.

(** A ceiling of 0.21 seconds, ten clock units to the second, five
    requests per second and a bucket two units ahead of the clock:
    [0.21 * 10 - 2] is [0.10000000000000009] in binary64, above the [0.1] of
    [10 * 0.01], and the wait of 0.2 seconds is returned. In exact
    arithmetic the difference is not above the tolerance, neither for the
    binary64 number the ceiling is nor for the decimal it was written as.
    With a clock accuracy of -1000, no buffer and a ceiling of zero, a
    bucket nine units ahead gives a wait below zero. *)
Lemma delay_returned_within_the_tolerance :
  (_get_sleep_time tok_key (Py.float 5)
     (ceiling_process 10 5 (Q2Qc (21 # 100)) (Py.float 5) 2)).1
    = inr (Py.float 2 / Py.float 10)%Qc
  ∧ max_sleep_time_seconds
      (self (ceiling_process 10 5 (Q2Qc (21 # 100)) (Py.float 5) 2))
    = Py.fl (Q2Qc (21 # 100))
  ∧ ¬ (Py.float 10 * Py.one_percent
       < Py.fl (Q2Qc (21 # 100)) * Py.float 10
         - Py.float 2 / Py.float 10 * Py.float 10)%Qc
  ∧ ¬ (Py.float 10 * Q2Qc (1 # 100)
       < Q2Qc (21 # 100) * Py.float 10
         - Py.float 2 / Py.float 10 * Py.float 10)%Qc
  ∧ (_get_sleep_time tok_key (Py.float 200)
       (ceiling_process (-1000) 0 (Py.float 0) (Py.float 200) 9)).1
    = inr (Py.float 9 / Py.float (-1000))%Qc
  ∧ (Py.float 9 / Py.float (-1000) < 0)%Qc.
Proof.
  split; [vm_compute; reflexivity|]. split; [reflexivity|].
  split; [vm_compute; intros H; discriminate H|].
  split; [vm_compute; intros H; discriminate H|].
  split; [vm_compute; reflexivity|]. vm_compute. reflexivity.
Qed.

(** The ceiling test at the tolerance, as the interpreter evaluates it. With
    a ceiling of 2.007 seconds the product with 1000 is
    [2007.0000000000002], and a bucket 1997 units ahead is served. With a
    ceiling of 0.05 seconds the product is [50.0], [50.0 - 40] is not above
    the [10.0] of [1000 * 0.01], and a bucket 40 units ahead is refused and
    left as it was. *)
Lemma ceiling_test_in_binary64 :
  max_sleep_hit
    (self (ceiling_process 10 5 (Q2Qc (21 # 100)) (Py.float 5) 2)) 2 = false
  ∧ (_get_sleep_time tok_key (Py.float 1000)
       (ceiling_process 1000 5 (Q2Qc (2007 # 1000)) (Py.float 1000) 1997)).1
    = inr (Py.float 1997 / Py.float 1000)%Qc
  ∧ bucket_value
      (_get_sleep_time tok_key (Py.float 1000)
         (ceiling_process 1000 5 (Q2Qc (2007 # 1000)) (Py.float 1000) 1997)).2
      tok_key = 1998
  ∧ (_get_sleep_time tok_key (Py.float 1000)
       (ceiling_process 1000 5 (Q2Qc (5 # 100)) (Py.float 1000) 40)).1
    = inl (MaxSleepTimeHitError (Py.float 40 / Py.float 1000)%Qc)
  ∧ bucket_value
      (_get_sleep_time tok_key (Py.float 1000)
         (ceiling_process 1000 5 (Q2Qc (5 # 100)) (Py.float 1000) 40)).2
      tok_key = 40.
Proof. vm_compute. repeat split; reflexivity. Qed.



(** The account bucket asks for half a second, the [image_list] bucket is
    over the ceiling: [handle_ratelimit] answers 429, and the clock, at 0
    before the call, is at 0.5 after it. The caller has waited. *)
Lemma earlier_delay_is_slept_before_rejection :
  (handle_ratelimit put_request tok (Some "image_list") two_bucket_process).1
    = inr (Some error_resp)
  ∧ time_ticker two_bucket_process = Py.float 0
  ∧ time_ticker
      (handle_ratelimit put_request tok (Some "image_list")
         two_bucket_process).2
    = (Py.float 500 / Py.float 1000)%Qc
  ∧ (time_ticker two_bucket_process
     < time_ticker
         (handle_ratelimit put_request tok (Some "image_list")
            two_bucket_process).2)%Qc.
Proof.
  split; [vm_compute; reflexivity|]. split; [reflexivity|].
  split; [apply Qc_is_canon; vm_compute; reflexivity|].
  vm_compute. reflexivity.
Qed.

Lemma rejection_stops_evaluation_witness :
  handle_limits
    ([(tok_key, Py.float 2)] ++ (tok_list_key, Py.float 1) :: [])%list
    two_bucket_process =
    (inr (Some error_resp),
     logged (_get_sleep_time tok_list_key (Py.float 1)
               (handle_limits [(tok_key, Py.float 2)] two_bucket_process).2).2
       (LogWarningReturning HTTP_TOO_MANY_REQUESTS tok_list_key))
  ∧ time_ticker
      (_get_sleep_time tok_list_key (Py.float 1)
         (handle_limits [(tok_key, Py.float 2)] two_bucket_process).2).2
    = time_ticker (handle_limits [(tok_key, Py.float 2)] two_bucket_process).2.
Proof.
  apply (rejection_stops_evaluation [(tok_key, Py.float 2)] [] tok_list_key
           (Py.float 1) (Py.float 2500 / Py.float 1000)%Qc two_bucket_process).
  - vm_compute. reflexivity.
  - vm_compute. reflexivity.
Defined.


Lemma unknown_action_has_no_bucket_witness :
  _get_limit_for_action None busy_process
    = (inl (ValueError None), busy_process)
  ∧ get_ratelimitable_key_tuples put_request tok None busy_process =
      (inr [(tok_key, Py.float 5)],
       logged busy_process (LogError (ValueError None))).
Proof.
  assert (account_ratelimit (self busy_process) = Py.float 5) as Hrate
    by (apply Qc_is_canon; reflexivity).
  pose proof (unknown_action_has_no_bucket put_request tok None busy_process)
    as Hbucket.
  rewrite Hrate in Hbucket. apply Hbucket.
  intros a _. discriminate.
Defined.

Lemma no_identity_bypass_witness :
  ∃ p',
    __call__ (λ _, Some "image_list") anonymous_environ busy_process =
      (inr (FromApp ["204 No Content"]), p')
    ∧ time_ticker p' = time_ticker busy_process
    ∧ time_override p' = time_override busy_process
    ∧ memcache_client (self p') = Some (fake_with [(tok_key, 400)]).
Proof.
  apply (no_identity_bypass (λ _, Some "image_list") anonymous_environ
           busy_process).
  reflexivity.
Defined.



(** * Further properties *)

(** ** The configuration and the clock across a request *)

Section MovesOn.
Context {C : Type} `{!MemcacheClient C}.

Lemma middleware_eta (s : RateLimitMiddleware C) :
  s = set_memcache_client s (memcache_client s).
Proof. by destruct s. Qed.

Lemma moved_on_refl (p : process C) : moved_on p p.
Proof. split; [apply middleware_eta|reflexivity]. Qed.

Lemma moved_on_trans (p q r : process C) :
  moved_on p q → moved_on q r → moved_on p r.
Proof.
  intros [Hs1 Ht1] [Hs2 Ht2]. split.
  - rewrite Hs2, Hs1. done.
  - by etrans.
Qed.

Lemma moves_on_ret {A : Type} (a : A) : moves_on (C:=C) (ret a).
Proof. intros p. apply moved_on_refl. Qed.

Lemma moves_on_raise {A : Type} (e : exn) : moves_on (C:=C) (A:=A) (raise e).
Proof. intros p. apply moved_on_refl. Qed.

Lemma moves_on_bind {A B : Type} (m : M C A) (k : A → M C B) :
  moves_on m → (∀ a, moves_on (k a)) → moves_on (bind m k).
Proof.
  intros Hm Hk p. unfold bind. specialize (Hm p).
  destruct (m p) as [[e|a] p1]; [done|].
  eapply moved_on_trans; [exact Hm|apply Hk].
Qed.

Lemma moves_on_try_except {A : Type} (m : M C A) (h : exn → option (M C A)) :
  moves_on m →
  (∀ e k, h e = Some k → moves_on k) →
  moves_on (try_except m h).
Proof.
  intros Hm Hh p. unfold try_except. specialize (Hm p).
  destruct (m p) as [[e|a] p1]; [|done].
  destruct (h e) as [k|] eqn:He; [|done].
  eapply moved_on_trans; [exact Hm|by eapply Hh].
Qed.

Lemma moves_on_get_self : moves_on (C:=C) get_self.
Proof. intros p. apply moved_on_refl. Qed.

Lemma moves_on_log (r : log_record) : moves_on (C:=C) (log r).
Proof. intros p. split; [apply middleware_eta|reflexivity]. Qed.

Lemma moves_on_mock_time : moves_on (C:=C) mock_time.
Proof.
  intros p. unfold mock_time.
  destruct (time_override p) as [|[cur|] rest];
    (split; [apply middleware_eta|reflexivity]).
Qed.

Lemma moves_on_py_div (x y : Qc) : moves_on (C:=C) (py_div x y).
Proof.
  unfold py_div. case_bool_decide; [apply moves_on_raise|apply moves_on_ret].
Qed.

Lemma moves_on_on_client {A : Type} (f : C → (exn + A) * C) :
  moves_on (on_client f).
Proof.
  intros p. unfold on_client.
  destruct (memcache_client (self p)) as [c|]; [|apply moved_on_refl].
  destruct (f c) as [r c']. split; [done|reflexivity].
Qed.

Lemma moves_on_sleep_if_positive (d : Qc) :
  moves_on (C:=C) (if Py.ltb (Py.float 0) d then mock_sleep d else ret tt).
Proof.
  destruct (Py.ltb (Py.float 0) d) eqn:Hd; [|apply moves_on_ret].
  intros p. split; [apply middleware_eta|]. cbn.
  apply ltb_true in Hd. rewrite float_0 in Hd.
  rewrite <- (Qcplus_0_r (time_ticker p)) at 1.
  apply Qcplus_le_mono_l. by apply Qclt_le_weak.
Qed.

Ltac moves_step :=
  first
    [ apply moves_on_ret
    | apply moves_on_raise
    | apply moves_on_get_self
    | apply moves_on_log
    | apply moves_on_mock_time
    | apply moves_on_py_div
    | apply moves_on_on_client
    | apply moves_on_sleep_if_positive
    | apply moves_on_bind; [|intros ?]
    | apply moves_on_try_except; [|intros [] ? [= <-]] ].

Lemma moves_on_reserve_slot (key : string) (max_rate : Qc) :
  moves_on (reserve_slot key max_rate).
Proof. unfold reserve_slot. repeat (moves_step || case_match). Qed.

Lemma moves_on_check_max_sleep (key : string) (tpr need : Z) :
  moves_on (check_max_sleep key tpr need).
Proof. unfold check_max_sleep. repeat (moves_step || case_match). Qed.

Lemma moves_on_get_sleep_time (key : string) (max_rate : Qc) :
  moves_on (_get_sleep_time key max_rate).
Proof.
  unfold _get_sleep_time, _get_sleep_time_try.
  repeat first [apply moves_on_reserve_slot|apply moves_on_check_max_sleep
               |moves_step].
Qed.

Lemma moves_on_check_bucket (key : string) (max_rate : Qc) :
  moves_on (check_bucket key max_rate).
Proof.
  unfold check_bucket.
  repeat first [apply moves_on_get_sleep_time|moves_step|case_match].
Qed.

Lemma moves_on_handle_limits (limits : list (string * Qc)) :
  moves_on (handle_limits limits).
Proof.
  induction limits as [|[key max_rate] rest IH]; cbn [handle_limits].
  - moves_step.
  - apply moves_on_bind; [apply moves_on_check_bucket|].
    intros [resp|]; [moves_step|exact IH].
Qed.

Lemma moves_on_get_ratelimitable_key_tuples
    (req : Request) (auth_tok : string) (action : option string) :
  moves_on (C:=C) (get_ratelimitable_key_tuples req auth_tok action).
Proof.
  unfold get_ratelimitable_key_tuples, _get_limit_for_action.
  repeat first [moves_step|case_match].
Qed.

Lemma moves_on_handle_ratelimit
    (req : Request) (auth_tok : string) (action : option string) :
  moves_on (handle_ratelimit req auth_tok action).
Proof.
  unfold handle_ratelimit.
  repeat first [apply moves_on_get_ratelimitable_key_tuples
               |apply moves_on_handle_limits|moves_step|case_match].
Qed.

Variable mapper_match : environ C → option string.

Lemma moves_on_call (env : environ C) : moves_on (__call__ mapper_match env).
Proof.
  intros p. unfold __call__. unfold bind at 1. unfold get_self at 1.
  set (rest := (λ _ : unit, _)).
  assert (∀ u, moves_on (rest u)) as Hrest.
  { intros u. unfold rest.
    repeat first [apply moves_on_handle_ratelimit|moves_step|case_match]. }
  unfold bind.
  destruct (memcache_client (self p)) as [c|].
  - unfold ret. apply Hrest.
  - unfold cache_from_env. destruct (glance_cache env) as [c|].
    + unfold ret, put_self.
      eapply moved_on_trans; [|apply Hrest]. split; [done|reflexivity].
    + unfold bind, log, ret, put_self.
      eapply moved_on_trans; [|apply Hrest]. split; [done|reflexivity].
Qed.

(** A turn of the loop leaves it with the 429 response or not at all. *)
Lemma check_bucket_response (key : string) (max_rate : Qc) (p p' : process C)
    (resp : Response) :
  check_bucket key max_rate p = (inr (Some resp), p') → resp = error_resp.
Proof.
  unfold check_bucket, try_except. unfold bind at 1.
  destruct (_get_sleep_time key max_rate p) as [[e|d] p1].
  - destruct e; try done. unfold bind, log, ret. by intros [= <- _].
  - unfold bind, get_self, log, mock_sleep, ret.
    repeat case_match; simplify_eq/=; done.
Qed.

Lemma handle_limits_response (limits : list (string * Qc)) (p p' : process C)
    (resp : Response) :
  handle_limits limits p = (inr (Some resp), p') → resp = error_resp.
Proof.
  revert p. induction limits as [|[key max_rate] rest IH]; intros p.
  - done.
  - rewrite handle_limits_cons.
    destruct (check_bucket key max_rate p) as [[e|[r|]] p1] eqn:Hchk;
      [done| |apply IH].
    intros [= <- <-]. by eapply check_bucket_response.
Qed.

(** What [__call__] returns is the result of the wrapped application or the
    429 response. *)
Lemma call_result_shape (env : environ C) (p p' : process C)
    (w : wsgi_result) :
  __call__ mapper_match env p = (inr w, p') →
  w = FromApp (app (self p) env) ∨ w = FromRateLimit error_resp.
Proof.
  unfold __call__. unfold bind at 1. unfold get_self at 1.
  unfold bind at 1.
  destruct ((match memcache_client (self p) with
             | Some _ => ret ()
             | None => _
             end) p) as [[e|[]] p1] eqn:Hadopt; [done|].
  assert (app (self p1) = app (self p)) as Happ.
  { revert Hadopt. destruct (memcache_client (self p)).
    - by intros [= <-].
    - unfold bind, cache_from_env, put_self, log, ret.
      destruct (glance_cache env); by intros [= <-]. }
  unfold bind at 1. unfold get_self at 1.
  destruct (memcache_client (self p1)); [|unfold bind, log, ret;
    intros [= <- _]; left; by rewrite Happ].
  destruct (HTTP_X_AUTH_TOKEN env) as [account|];
    [|unfold bind, log, ret; intros [= <- _]; left; by rewrite Happ].
  unfold bind at 1.
  destruct (_ p1) as [[e|[]] p2] eqn:Hdebug; [done|].
  assert (self p2 = self p1) as Hself2.
  { revert Hdebug. unfold log, ret. repeat case_match; by intros [= <-]. }
  unfold bind at 1.
  destruct (handle_ratelimit _ account _ p2) as [[e|[resp|]] p3] eqn:Hh; [done|..].
  - unfold ret. intros [= <- _]. right. f_equal.
    revert Hh. unfold handle_ratelimit. unfold bind at 1. unfold get_self at 1.
    destruct (memcache_client (self p2)); [|by unfold bind, log, ret].
    unfold bind.
    destruct (get_ratelimitable_key_tuples _ _ _ p2) as [[e|limits] p4]; [done|].
    apply handle_limits_response.
  - unfold bind, get_self, ret. intros [= <- _]. left.
    pose proof (moves_on_handle_ratelimit {| method := REQUEST_METHOD env |}
                  account (mapper_match env) p2) as [Hs _].
    rewrite Hh in Hs. cbn [snd] in Hs. rewrite Hs, Hself2. cbn. by rewrite Happ.
Qed.

End MovesOn.

(** ** The time a request can be held *)

Section Ceiling.
Context {C : Type} `{!MemcacheClient C}.

(** A wait that [_get_sleep_time] returns is zero or below the ceiling. *)
Lemma returned_wait_below_ceiling (key : string) (max_rate : Qc)
    (p p' : process C) (d : Qc) :
  0 ≤ clock_accuracy (self p) →
  _get_sleep_time key max_rate p = (inr d, p') →
  d = Py.float 0 ∨ (0 ≤ d ∧ d < max_sleep_time_seconds (self p))%Qc.
Proof.
  intros Hca Hret.
  apply get_sleep_time_returns in Hret as [Htry|Hd]; [|by left]. right.
  revert Htry. unfold _get_sleep_time_try. unfold bind at 1.
  destruct (reserve_slot key max_rate p) as [[e|[tpr need]] p1] eqn:Hres;
    [done|].
  destruct (reserve_slot_returns _ _ _ _ _ _ Hres) as [Hneed Hself].
  cbn [fst snd]. intros Hchk.
  apply check_max_sleep_returns in Hchk as [Hhit ->].
  rewrite Hself in Hhit |- *. cbn [clock_accuracy set_memcache_client].
  assert (clock_accuracy (self p) ≠ 0) as Hca0.
  { intros Hz. revert Hhit. rewrite max_sleep_hit_clock_0; done. }
  assert (0 < Py.float (clock_accuracy (self p)))%Qc as Hpos.
  { rewrite <- float_0. unfold Py.float. rewrite <- Z2Qc_inj_lt. lia. }
  split.
  - unfold Qcdiv. apply Qcmult_nonneg_nonneg; [by apply float_nonneg|].
    apply Qclt_le_weak. by apply Qcinv_pos.
  - apply (Qcmult_lt_mono_pos_r _ _ (Py.float (clock_accuracy (self p))));
      [done|].
    replace (Py.float need / Py.float (clock_accuracy (self p))
             * Py.float (clock_accuracy (self p)))%Qc
      with (Py.float need) by (field; by apply float_ne_0).
    by apply (below_ceiling (set_memcache_client (self p)
                               (memcache_client (self p1)))).
Qed.

Lemma moved_on_conf (p p' : process C) :
  moved_on p p' →
  clock_accuracy (self p') = clock_accuracy (self p)
  ∧ max_sleep_time_seconds (self p') = max_sleep_time_seconds (self p).
Proof. intros [-> _]. done. Qed.

Lemma check_bucket_wait_bound (key : string) (max_rate : Qc) (p : process C) :
  0 ≤ clock_accuracy (self p) →
  (0 ≤ max_sleep_time_seconds (self p))%Qc →
  (time_ticker (check_bucket key max_rate p).2
   ≤ time_ticker p + max_sleep_time_seconds (self p))%Qc.
Proof.
  intros Hca Hmax.
  assert (time_ticker p ≤ time_ticker p + max_sleep_time_seconds (self p))%Qc
    as Hsame.
  { rewrite <- (Qcplus_0_r (time_ticker p)) at 1. by apply Qcplus_le_mono_l. }
  pose proof (get_sleep_time_keeps_ticker key max_rate p) as Hkeep.
  unfold check_bucket, try_except. unfold bind at 1.
  destruct (_get_sleep_time key max_rate p) as [[e|d] p1] eqn:Hget;
    cbn [snd] in Hkeep.
  - destruct e; cbn; by rewrite Hkeep.
  - unfold bind at 1. unfold get_self at 1. unfold bind at 1.
    assert (∀ q : process C,
              time_ticker
                ((if Py.truthy (log_sleep_time_seconds (self p1))
                     && Py.ltb (log_sleep_time_seconds (self p1)) d
                  then log (LogWarningSleep d key) else ret ()) q).2
              = time_ticker q
              ∧ ∃ u, ((if Py.truthy (log_sleep_time_seconds (self p1))
                          && Py.ltb (log_sleep_time_seconds (self p1)) d
                       then log (LogWarningSleep d key) else ret ()) q).1
                     = inr u) as Hlog.
    { intros q. destruct (_ && _); split; eauto. }
    destruct (Hlog p1) as [Hlt [u Hlu]].
    destruct (_ p1) as [r p2]; cbn [fst snd] in Hlt, Hlu. subst r.
    unfold bind, mock_sleep, ret.
    destruct (Py.ltb (Py.float 0) d) eqn:Hpos; cbn [snd time_ticker].
    + rewrite Hlt, Hkeep. apply Qcplus_le_mono_l.
      destruct (returned_wait_below_ceiling _ _ _ _ _ Hca Hget)
        as [->|[_ Hlt']]; [done|]. by apply Qclt_le_weak.
    + by rewrite Hlt, Hkeep.
Qed.

Lemma handle_limits_wait_bound (limits : list (string * Qc)) (p : process C) :
  0 ≤ clock_accuracy (self p) →
  (0 ≤ max_sleep_time_seconds (self p))%Qc →
  (time_ticker (handle_limits limits p).2
   ≤ time_ticker p
     + Py.float (Z.of_nat (length limits)) * max_sleep_time_seconds (self p))%Qc.
Proof.
  revert p. induction limits as [|[key max_rate] rest IH]; intros p Hca Hmax.
  - cbn [handle_limits ret snd length].
    change (Z.of_nat 0) with 0. rewrite float_0.
    by replace (time_ticker p + 0 * max_sleep_time_seconds (self p))%Qc
      with (time_ticker p) by ring.
  - pose proof (check_bucket_wait_bound key max_rate p Hca Hmax) as Hfirst.
    pose proof (moves_on_check_bucket key max_rate p) as Hmoved.
    apply moved_on_conf in Hmoved as [Hca1 Hmax1].
    assert (time_ticker p + max_sleep_time_seconds (self p)
            ≤ time_ticker p
              + Py.float (Z.of_nat (length ((key, max_rate) :: rest)))
                * max_sleep_time_seconds (self p))%Qc as Hone.
    { apply Qcplus_le_mono_l.
      rewrite <- (Qcmult_1_l (max_sleep_time_seconds (self p))) at 1.
      apply Qcmult_le_mono_nonneg_r; [done|].
      rewrite <- Z2Qc_inj_1. unfold Py.float. rewrite <- Z2Qc_inj_le.
      cbn [length]. lia. }
    rewrite handle_limits_cons.
    destruct (check_bucket key max_rate p) as [[e|[resp|]] p1];
      cbn [snd] in *; [by etrans..|].
    specialize (IH p1). rewrite Hca1, Hmax1 in IH.
    etrans; [by apply IH|].
    replace (Py.float (Z.of_nat (length ((key, max_rate) :: rest))))
      with (1 + Py.float (Z.of_nat (length rest)))%Qc.
    2:{ cbn [length]. rewrite Nat2Z.inj_succ. unfold Z.succ, Py.float.
        rewrite Z2Qc_inj_add, Z2Qc_inj_1. ring. }
    replace (time_ticker p
             + (1 + Py.float (Z.of_nat (length rest)))
               * max_sleep_time_seconds (self p))%Qc
      with (time_ticker p + max_sleep_time_seconds (self p)
            + Py.float (Z.of_nat (length rest))
              * max_sleep_time_seconds (self p))%Qc by ring.
    by apply Qcplus_le_mono_r.
Qed.

(** Never more than the account bucket and the bucket of the action. *)
Lemma key_tuples_length (req : Request) (auth_tok : string)
    (action : option string) (p p' : process C) (keys : list (string * Qc)) :
  get_ratelimitable_key_tuples req auth_tok action p = (inr keys, p') →
  (length keys ≤ 2)%nat.
Proof.
  unfold get_ratelimitable_key_tuples.
  unfold bind at 1. unfold get_self at 1. unfold bind at 1.
  destruct (try_except _ _ p) as [[e|limit] p1]; [done|].
  unfold ret. intros [= <- _].
  repeat case_match; cbn; lia.
Qed.

Lemma handle_ratelimit_wait_bound
    (req : Request) (auth_tok : string) (action : option string)
    (p : process C) :
  0 ≤ clock_accuracy (self p) →
  (0 ≤ max_sleep_time_seconds (self p))%Qc →
  (time_ticker (handle_ratelimit req auth_tok action p).2
   ≤ time_ticker p + Py.float 2 * max_sleep_time_seconds (self p))%Qc.
Proof.
  intros Hca Hmax.
  assert (time_ticker p
          ≤ time_ticker p + Py.float 2 * max_sleep_time_seconds (self p))%Qc
    as Hsame.
  { rewrite <- (Qcplus_0_r (time_ticker p)) at 1. apply Qcplus_le_mono_l.
    apply Qcmult_nonneg_nonneg; [by apply float_nonneg|done]. }
  unfold handle_ratelimit. unfold bind at 1. unfold get_self at 1.
  destruct (memcache_client (self p)); [|done].
  destruct (key_tuples_rates req auth_tok action p)
    as (keys & p1 & Hkeys & _ & Hself & Htick & _).
  pose proof (key_tuples_length _ _ _ _ _ _ Hkeys) as Hlen.
  unfold bind. rewrite Hkeys.
  pose proof (handle_limits_wait_bound keys p1) as Hbound.
  rewrite Hself, Htick in Hbound.
  etrans; [by apply Hbound|]. apply Qcplus_le_mono_l.
  apply Qcmult_le_mono_nonneg_r; [done|].
  unfold Py.float. rewrite <- Z2Qc_inj_le. lia.
Qed.

Variable mapper_match : environ C → option string.

(** X3. Under a clock accuracy and a ceiling that are not negative, a call
    of the middleware leaves the configuration as it was (only the client it
    holds may differ), never turns the clock back, and holds the request for
    at most twice [max_sleep_time_seconds]: once for the account bucket and
    once for the bucket of the action. *)
Theorem call_delay_is_bounded (env : environ C) (p : process C) :
  0 ≤ clock_accuracy (self p) →
  (0 ≤ max_sleep_time_seconds (self p))%Qc →
  let p' := (__call__ mapper_match env p).2 in
  self p' = set_memcache_client (self p) (memcache_client (self p'))
  ∧ (time_ticker p ≤ time_ticker p')%Qc
  ∧ (time_ticker p'
     ≤ time_ticker p + Py.float 2 * max_sleep_time_seconds (self p))%Qc.
Proof.
  intros Hca Hmax p'.
  destruct (moves_on_call mapper_match env p) as [Hconf Hlow].
  split; [exact Hconf|]. split; [exact Hlow|].
  assert (time_ticker p
          ≤ time_ticker p + Py.float 2 * max_sleep_time_seconds (self p))%Qc
    as Hsame.
  { rewrite <- (Qcplus_0_r (time_ticker p)) at 1. apply Qcplus_le_mono_l.
    apply Qcmult_nonneg_nonneg; [by apply float_nonneg|done]. }
  unfold p', __call__. unfold bind at 1. unfold get_self at 1.
  unfold bind at 1.
  destruct ((match memcache_client (self p) with
             | Some _ => ret ()
             | None => _
             end) p) as [[e|[]] p1] eqn:Hadopt; [|].
  { exfalso. revert Hadopt. destruct (memcache_client (self p)); [done|].
    unfold cache_from_env. by destruct (glance_cache env). }
  assert (time_ticker p1 = time_ticker p
          ∧ clock_accuracy (self p1) = clock_accuracy (self p)
          ∧ max_sleep_time_seconds (self p1) = max_sleep_time_seconds (self p))
    as (Ht1 & Hca1 & Hmax1).
  { revert Hadopt. destruct (memcache_client (self p)).
    - by intros [= <-].
    - unfold cache_from_env.
      destruct (glance_cache env); cbn; by intros [= <-]. }
  unfold bind at 1. unfold get_self at 1.
  destruct (memcache_client (self p1));
    [|unfold bind, log, ret; cbn; by rewrite Ht1].
  destruct (HTTP_X_AUTH_TOKEN env) as [account|];
    [|unfold bind, log, ret; cbn; by rewrite Ht1].
  unfold bind at 1.
  destruct (_ p1) as [[e|[]] p2] eqn:Hdebug.
  { exfalso. revert Hdebug. unfold log, ret. repeat case_match; done. }
  assert (time_ticker p2 = time_ticker p1 ∧ self p2 = self p1) as [Ht2 Hs2].
  { revert Hdebug. unfold log, ret. repeat case_match; by intros [= <-]. }
  pose proof (handle_ratelimit_wait_bound {| method := REQUEST_METHOD env |}
                account (mapper_match env) p2) as Hbound.
  rewrite Hs2, Ht2, Hca1, Hmax1, Ht1 in Hbound. specialize (Hbound Hca Hmax).
  unfold bind at 1.
  destruct (handle_ratelimit _ account _ p2) as [[e|[resp|]] p3];
    cbn [snd] in Hbound; unfold bind, get_self, ret; done.
Qed.

End Ceiling.

(** ** Nothing to limit, and nothing to limit with *)

Section Unlimited.
Context {C : Type} `{!MemcacheClient C}.

(** X4. When no rate is configured (the account rate is zero and no action
    has a limit above zero, as with an empty [conf]), [handle_ratelimit]
    answers [None] for every request and leaves the middleware, with the
    client it holds, and the clock as they were: the store is not called. *)
Theorem nothing_limited_no_store_access
    (req : Request) (auth_tok : string) (action : option string)
    (p : process C) :
  nothing_limited (self p) →
  ∃ p', handle_ratelimit req auth_tok action p = (inr None, p')
        ∧ self p' = self p
        ∧ time_ticker p' = time_ticker p
        ∧ time_override p' = time_override p.
Proof.
  intros (Hacc & Hl & Hd & Hr & Hup & Hu).
  unfold handle_ratelimit. unfold bind at 1. unfold get_self at 1.
  destruct (memcache_client (self p)) as [c|];
    [|unfold bind, log, ret; eexists; split; [reflexivity|done]].
  assert (∀ x, (x ≤ Py.float 0)%Qc → Py.ltb (Py.float 0) x = false) as Hno.
  { intros x Hx. apply ltb_false. exact Hx. }
  assert (∃ l p1,
            try_except (_get_limit_for_action action)
              (λ e, match e with
                    | ValueError _ => Some (log (LogError e);;; ret (Py.float 0))
                    | _ => None
                    end) p = (inr l, p1)
            ∧ (l ≤ Py.float 0)%Qc ∧ self p1 = self p
            ∧ time_ticker p1 = time_ticker p
            ∧ time_override p1 = time_override p)
    as (l & p1 & Htry & Hle & Hs1 & Ht1 & Ho1).
  { unfold try_except, _get_limit_for_action, bind, get_self.
    repeat case_bool_decide; unfold ret, raise, log;
      eexists _, _; (split; [reflexivity|]); done. }
  unfold get_ratelimitable_key_tuples.
  unfold bind at 1. unfold bind at 1. unfold get_self at 1.
  unfold bind at 1. rewrite Htry. unfold ret.
  rewrite (Hno l Hle), Hacc.
  replace (Py.truthy (Py.float 0)) with false by reflexivity.
  rewrite andb_false_r. cbn [handle_limits ret].
  exists p1. done.
Qed.

Variable mapper_match : environ C → option string.

(** X5. A middleware that holds no client, called with an environment
    without [glance.cache], hands the request to the wrapped application
    whatever the request is; [item_from_env] logs the missing key as an
    error and [__call__] a warning, and nothing else changes. *)
Theorem no_client_no_limiting (env : environ C) (p : process C) :
  memcache_client (self p) = None →
  glance_cache env = None →
  __call__ mapper_match env p =
    (inr (FromApp (app (self p) env)),
     logged (logged p (LogErrorNotInEnv "glance.cache")) LogWarningNoClient).
Proof.
  intros Hc Henv. unfold __call__.
  unfold bind at 1. unfold get_self at 1. rewrite Hc.
  unfold cache_from_env. rewrite Henv.
  unfold bind, log, ret, put_self, get_self. cbn.
  f_equal. unfold logged. cbn. f_equal.
  rewrite <- Hc. symmetry. apply middleware_eta.
Qed.

End Unlimited.

(** ** Buckets of other callers *)

Section Isolation.

Variable k : string.

Lemma leaves_ret {A : Type} (a : A) : leaves_bucket k (ret a).
Proof. done. Qed.

Lemma leaves_raise {A : Type} (e : exn) : leaves_bucket (A:=A) k (raise e).
Proof. done. Qed.

Lemma leaves_bind {A B : Type} (m : M Fake.FakeMemcache A)
    (f : A → M Fake.FakeMemcache B) :
  leaves_bucket k m → (∀ a, leaves_bucket k (f a)) → leaves_bucket k (bind m f).
Proof.
  intros Hm Hf p. unfold bind. specialize (Hm p).
  destruct (m p) as [[e|a] p1]; [done|]. cbn [snd] in Hm.
  by rewrite Hf.
Qed.

Lemma leaves_try_except {A : Type} (m : M Fake.FakeMemcache A)
    (h : exn → option (M Fake.FakeMemcache A)) :
  leaves_bucket k m →
  (∀ e f, h e = Some f → leaves_bucket k f) →
  leaves_bucket k (try_except m h).
Proof.
  intros Hm Hh p. unfold try_except. specialize (Hm p).
  destruct (m p) as [[e|a] p1]; [|done]. cbn [snd] in Hm.
  destruct (h e) as [f|] eqn:He; [|done]. by rewrite (Hh e f He).
Qed.

Lemma leaves_get_self : leaves_bucket k get_self.
Proof. done. Qed.

Lemma leaves_log (r : log_record) : leaves_bucket k (log r).
Proof. done. Qed.

Lemma leaves_mock_sleep (x : Qc) : leaves_bucket k (mock_sleep x).
Proof. done. Qed.

Lemma leaves_mock_time : leaves_bucket k mock_time.
Proof. intros p. unfold mock_time. by repeat case_match. Qed.

Lemma leaves_py_div (x y : Qc) : leaves_bucket k (py_div x y).
Proof. unfold py_div. by case_bool_decide. Qed.

Lemma fake_incr_other (m : Fake.FakeMemcache) (key : string) (delta : Z) :
  key ≠ k → Fake.value (Fake.incr m key delta).2 k = Fake.value m k.
Proof.
  intros Hne. unfold Fake.incr, Fake.value.
  repeat case_match; cbn; by rewrite ?lookup_insert_ne.
Qed.

Lemma fake_set_other (m : Fake.FakeMemcache) (key : string) (v : Z) :
  key ≠ k → Fake.value (Fake.set m key v).2 k = Fake.value m k.
Proof. intros Hne. unfold Fake.set, Fake.value. cbn. by rewrite lookup_insert_ne. Qed.

Lemma leaves_on_client {A : Type}
    (f : Fake.FakeMemcache → (exn + A) * Fake.FakeMemcache) :
  (∀ m, Fake.value (f m).2 k = Fake.value m k) →
  leaves_bucket k (on_client f).
Proof.
  intros Hf p. unfold on_client, bucket_value.
  destruct (memcache_client (self p)) as [m|] eqn:Hm; cbn; [|by rewrite Hm].
  specialize (Hf m). destruct (f m) as [r m']. cbn. done.
Qed.

Ltac leaves_step :=
  first
    [ apply leaves_ret
    | apply leaves_raise
    | apply leaves_get_self
    | apply leaves_log
    | apply leaves_mock_sleep
    | apply leaves_mock_time
    | apply leaves_py_div
    | apply leaves_bind; [|intros ?]
    | apply leaves_try_except; [|intros [] ? [= <-]] ].

Lemma leaves_get_sleep_time (key : string) (max_rate : Qc) :
  key ≠ k → leaves_bucket k (_get_sleep_time key max_rate).
Proof.
  intros Hne.
  unfold _get_sleep_time, _get_sleep_time_try, reserve_slot, check_max_sleep.
  repeat first
    [ leaves_step
    | case_match
    | apply leaves_on_client; intros m;
      first [by apply fake_incr_other|by apply fake_set_other] ].
Qed.

Lemma leaves_check_bucket (key : string) (max_rate : Qc) :
  key ≠ k → leaves_bucket k (check_bucket key max_rate).
Proof.
  intros Hne. unfold check_bucket.
  repeat first [by apply leaves_get_sleep_time|leaves_step|case_match].
Qed.

Lemma leaves_handle_limits (limits : list (string * Qc)) :
  Forall (λ kr, kr.1 ≠ k) limits → leaves_bucket k (handle_limits limits).
Proof.
  induction 1 as [|[key max_rate] rest Hne _ IH]; cbn [handle_limits].
  - leaves_step.
  - apply leaves_bind; [by apply leaves_check_bucket|].
    intros [resp|]; [leaves_step|exact IH].
Qed.

End Isolation.

(** The keys of the bucket list are the account key and the action key of
    the caller. *)
Lemma key_tuples_keys {C : Type} (req : Request) (auth_tok : string)
    (action : option string) (p p' : process C) (keys : list (string * Qc)) :
  get_ratelimitable_key_tuples req auth_tok action p = (inr keys, p') →
  Forall (λ kr, kr.1 = account_key auth_tok
                ∨ kr.1 = action_key auth_tok action) keys.
Proof.
  unfold get_ratelimitable_key_tuples.
  unfold bind at 1. unfold get_self at 1. unfold bind at 1.
  destruct (try_except _ _ p) as [[e|limit] p1]; [done|].
  unfold ret. intros [= <- _].
  repeat case_match; cbn [List.app]; repeat (apply Forall_cons; split);
    try apply Forall_nil; cbn; auto.
Qed.

Lemma leaves_get_ratelimitable_key_tuples (k : string)
    (req : Request) (auth_tok : string) (action : option string) :
  leaves_bucket k (get_ratelimitable_key_tuples req auth_tok action).
Proof.
  intros p.
  destruct (key_tuples_rates req auth_tok action p)
    as (keys & p1 & Hkeys & _ & Hself & _).
  rewrite Hkeys. unfold bucket_value. cbn. by rewrite Hself.
Qed.

Lemma account_key_inj (tok1 tok2 : string) :
  account_key tok1 = account_key tok2 → tok1 = tok2.
Proof. unfold account_key. apply (inj _). Qed.

Lemma account_key_is_action_key (tok' tok : string) (action : option string) :
  account_key tok' = action_key tok action
  ↔ tok' = tok +:+ "/" +:+ str_of_action action.
Proof.
  unfold account_key, action_key. split; [apply (inj _)|by intros ->].
Qed.

(** X6. [handle_ratelimit] for a token and an action changes no bucket of
    the [FakeMemcache] but the account bucket and the action bucket of that
    token. In particular the account bucket of another token stays as it
    was, unless that token reads as this token, a slash and the action. *)
Theorem other_buckets_untouched
    (req : Request) (auth_tok : string) (action : option string)
    (p : process Fake.FakeMemcache) :
  let p' := (handle_ratelimit req auth_tok action p).2 in
  (∀ k, k ≠ account_key auth_tok → k ≠ action_key auth_tok action →
        bucket_value p' k = bucket_value p k)
  ∧ (∀ tok', tok' ≠ auth_tok →
             tok' ≠ auth_tok +:+ "/" +:+ str_of_action action →
             bucket_value p' (account_key tok')
             = bucket_value p (account_key tok')).
Proof.
  intros p'.
  assert (∀ k, k ≠ account_key auth_tok → k ≠ action_key auth_tok action →
               bucket_value p' k = bucket_value p k) as Hkeys.
  { intros k Hacc Hact. unfold p', handle_ratelimit.
    unfold bind at 1. unfold get_self at 1.
    destruct (memcache_client (self p)) as [m|] eqn:Hm.
    - unfold bind.
      pose proof (leaves_get_ratelimitable_key_tuples k req auth_tok action p)
        as Hfirst.
      destruct (get_ratelimitable_key_tuples req auth_tok action p)
        as [[e|keys] p1] eqn:Hk; cbn [snd] in Hfirst; [done|].
      rewrite <- Hfirst. apply leaves_handle_limits.
      pose proof (key_tuples_keys _ _ _ _ _ _ Hk) as Hin.
      rewrite Forall_forall in Hin. apply Forall_forall.
      intros [key r] Hel Heq. cbn in Heq. subst key.
      destruct (Hin _ Hel) as [Hk1|Hk1]; cbn in Hk1; congruence.
    - unfold bind, log, ret. unfold bucket_value. cbn. by rewrite Hm. }
  split; [exact Hkeys|].
  intros tok' Hne Hne'. apply Hkeys.
  - intros Heq. by apply account_key_inj in Heq.
  - intros Heq. by apply account_key_is_action_key in Heq.
Qed.

(** ** Reserving a slot and giving it back *)

(** X7. On a healthy [FakeMemcache], an [incr] by an amount that is not
    negative on a bucket that is not negative returns the sum, the [decr] by
    the same amount that follows returns the value the bucket had before,
    and afterwards every bucket reads as it did before the two calls. *)
Theorem fake_incr_decr_round_trip (m : Fake.FakeMemcache) (key : string)
    (delta : Z) :
  Fake.error_on_incr m = false →
  Fake.init_incr_return_neg m = false →
  0 ≤ Fake.value m key →
  0 ≤ delta →
  let m1 := (Fake.incr m key delta).2 in
  (Fake.incr m key delta).1 = inr (Fake.value m key + delta)
  ∧ (Fake.decr m1 key delta).1 = inr (Fake.value m key)
  ∧ ∀ k, Fake.value (Fake.decr m1 key delta).2 k = Fake.value m k.
Proof.
  intros He Hi Hv Hd m1. unfold m1.
  rewrite fake_incr_ok by (done || lia). cbn [fst snd].
  split; [done|]. unfold Fake.decr.
  rewrite fake_incr_ok; cbn [Fake.error_on_incr Fake.init_incr_return_neg
    Fake.with_store]; try done.
  2:{ rewrite value_with_store_insert. lia. }
  rewrite value_with_store_insert. cbn [fst snd].
  split; [f_equal; lia|].
  intros k. unfold Fake.value. cbn.
  destruct (decide (k = key)) as [->|Hne].
  - rewrite lookup_insert_eq. cbn. lia.
  - by rewrite !lookup_insert_ne.
Qed.

(** A busy request at the ceiling on a healthy [FakeMemcache]: refused, and
    the bucket holds what it held. *)
Lemma get_sleep_time_refused (key : string) (max_rate : Qc)
    (p p1 : process Fake.FakeMemcache) (m : Fake.FakeMemcache) (t : Qc) :
  (0 < max_rate)%Qc →
  0 < clock_accuracy (self p) →
  memcache_client (self p) = Some m →
  Fake.error_on_incr m = false →
  Fake.init_incr_return_neg m = false →
  0 ≤ Fake.value m key →
  mock_time p = (inr t, p1) →
  let s := self p in
  let now_m := Py.round (t * Py.float (clock_accuracy s))%Qc in
  let tpr := Py.round (Py.float (clock_accuracy s) / max_rate)%Qc in
  let running := Fake.value m key + tpr in
  now_m - running ≤ rate_buffer_seconds s * clock_accuracy s →
  let need := Z.max (running - now_m - tpr) 0 in
  max_sleep_hit s need = true →
  ∃ p',
    _get_sleep_time key max_rate p =
      (inl (MaxSleepTimeHitError
              (Py.float need / Py.float (clock_accuracy s))%Qc), p')
    ∧ bucket_value p' key = Fake.value m key
    ∧ time_ticker p' = time_ticker p.
Proof.
  intros HR Hca Hm He Hi Hv Ht s now_m tpr running Hbusy need Hhit.
  assert (max_rate ≠ 0%Qc) as HR0.
  { intros ->. by apply Qclt_not_eq in HR. }
  assert (0 ≤ tpr) as Htpr by by apply time_per_request_nonneg.
  destruct (mock_time_frame _ _ _ Ht) as (_ & Hself & Htick & _).
  set (m1 := Fake.with_store m (<[key := running]> (Fake.store m))).
  set (m2 := Fake.with_store m1 (<[key := Fake.value m key]> (Fake.store m1))).
  exists (with_client (with_client p1 m1) m2).
  split; [|split; [apply value_with_store_insert|exact Htick]].
  unfold _get_sleep_time, try_except, _get_sleep_time_try. unfold bind at 1.
  rewrite (reserve_slot_after_incr key max_rate p p1 m m1 t (inr running));
    [|done..|apply fake_incr_ok; fold s tpr; [done|done|lia]].
  fold s now_m tpr. unfold idle_longer_than_buffer.
  rewrite (proj2 (Z.ltb_ge _ _)) by done.
  unfold ret at 1. cbn [fst snd]. fold need.
  unfold check_max_sleep. unfold bind at 1. unfold get_self at 1.
  rewrite self_with_client, Hself.
  change (max_sleep_hit (set_memcache_client (self p) (Some m1)) need)
    with (max_sleep_hit s need).
  rewrite Hhit. unfold bind at 1. unfold on_client at 1.
  cbn [self with_client memcache_client set_memcache_client].
  change (decr m1 key tpr) with (Fake.incr m1 key (- tpr)).
  rewrite fake_incr_ok; [|done|done|].
  2:{ unfold m1. rewrite value_with_store_insert. unfold running. lia. }
  replace (Fake.value m1 key + - tpr) with (Fake.value m key).
  2:{ unfold m1. rewrite value_with_store_insert. unfold running. lia. }
  fold m2. unfold bind, py_div.
  rewrite bool_decide_false by (apply float_ne_0; cbn; lia).
  done.
Qed.


(** ** Exceptions that leave a call *)

Section NeverRaises.

Lemma raises_only_weaken {A : Type} (P Q : exn → Prop)
    (m : M Fake.FakeMemcache A) :
  (∀ e, P e → Q e) → raises_only P m → raises_only Q m.
Proof. intros HPQ Hm p Hp. destruct (Hm p Hp). split; auto. Qed.

Lemma raises_only_ret {A : Type} (P : exn → Prop) (a : A) :
  raises_only P (ret a).
Proof. intros p Hp. split; [done|]. by intros e. Qed.

Lemma raises_only_raise {A : Type} (P : exn → Prop) (e : exn) :
  P e → raises_only (A:=A) P (raise e).
Proof. intros He p Hp. split; [done|]. by intros e' [= <-]. Qed.

Lemma raises_only_bind {A B : Type} (P : exn → Prop)
    (m : M Fake.FakeMemcache A) (k : A → M Fake.FakeMemcache B) :
  raises_only P m → (∀ a, raises_only P (k a)) → raises_only P (bind m k).
Proof.
  intros Hm Hk p Hp. unfold bind. destruct (Hm p Hp) as [Hp1 He].
  destruct (m p) as [[e|a] p1]; cbn [fst snd] in *.
  - split; [done|]. intros e' [= <-]. by apply He.
  - by apply Hk.
Qed.

Lemma raises_only_try_except {A : Type} (P Q : exn → Prop)
    (m : M Fake.FakeMemcache A)
    (h : exn → option (M Fake.FakeMemcache A)) :
  raises_only Q m →
  (∀ e, Q e → match h e with
               | Some k => raises_only P k
               | None => P e
               end) →
  raises_only P (try_except m h).
Proof.
  intros Hm Hh p Hp. unfold try_except. destruct (Hm p Hp) as [Hp1 He].
  destruct (m p) as [[e|a] p1]; cbn [fst snd] in *; [|done].
  specialize (Hh e (He e eq_refl)).
  destruct (h e) as [k|]; [by apply Hh|].
  split; [done|]. by intros e' [= <-].
Qed.

Lemma raises_only_with_self {A : Type} (P : exn → Prop)
    (k : RateLimitMiddleware Fake.FakeMemcache → M Fake.FakeMemcache A) :
  (∀ s, clock_accuracy s ≠ 0 → raises_only P (k s)) →
  raises_only P (bind get_self k).
Proof. intros Hk p Hp. unfold bind, get_self. apply Hk; [apply Hp|done]. Qed.

Lemma raises_only_log (P : exn → Prop) (r : log_record) :
  raises_only P (log r).
Proof. intros p Hp. split; [done|]. by intros e. Qed.

Lemma raises_only_mock_sleep (P : exn → Prop) (x : Qc) :
  raises_only P (mock_sleep x).
Proof. intros p Hp. split; [done|]. by intros e. Qed.

Lemma raises_only_mock_time (P : exn → Prop) : raises_only P mock_time.
Proof.
  intros p Hp. unfold mock_time.
  destruct (time_override p) as [|[cur|] rest]; (split; [done|by intros e]).
Qed.

Lemma raises_only_py_div (P : exn → Prop) (x y : Qc) :
  y ≠ 0%Qc → raises_only P (py_div x y).
Proof.
  intros Hy. unfold py_div. rewrite bool_decide_false by done.
  apply raises_only_ret.
Qed.

Lemma raises_only_on_client {A : Type} (P : exn → Prop)
    (f : Fake.FakeMemcache → (exn + A) * Fake.FakeMemcache) :
  (∀ c e, (f c).1 = inl e → P e) → raises_only P (on_client f).
Proof.
  intros Hf p [Hca [c Hc]]. unfold on_client. rewrite Hc.
  specialize (Hf c). destruct (f c) as [r c']. cbn [fst snd] in *.
  split; [|done]. split; [done|]. by eexists.
Qed.

Lemma fake_incr_raises (c : Fake.FakeMemcache) (key : string) (delta : Z)
    (e : exn) :
  (Fake.incr c key delta).1 = inl e → is_connection_error e.
Proof.
  unfold Fake.incr. repeat case_match; try done.
  intros [= <-]. by eexists.
Qed.

Lemma raises_only_reserve_slot (key : string) (max_rate : Qc) :
  max_rate ≠ 0%Qc →
  raises_only is_connection_error (reserve_slot key max_rate).
Proof.
  intros HR. unfold reserve_slot.
  apply raises_only_with_self. intros s Hs.
  apply raises_only_bind; [apply raises_only_mock_time|]. intros t.
  apply raises_only_bind; [by apply raises_only_py_div|]. intros q.
  apply raises_only_bind.
  { apply raises_only_on_client. intros c e. apply fake_incr_raises. }
  intros running. case_match; [|apply raises_only_ret].
  apply raises_only_bind; [|intros ?; apply raises_only_ret].
  apply raises_only_on_client. intros c e. done.
Qed.

Lemma raises_only_check_max_sleep (key : string) (tpr need : Z) :
  raises_only (λ e, is_connection_error e ∨ is_max_sleep_hit e)
    (check_max_sleep key tpr need).
Proof.
  unfold check_max_sleep.
  apply raises_only_with_self. intros s Hs.
  assert (Py.float (clock_accuracy s) ≠ 0%Qc) as Hca by by apply float_ne_0.
  case_match; [|by apply raises_only_py_div].
  apply raises_only_bind.
  { apply raises_only_on_client. intros c e He. left.
    by apply fake_incr_raises in He. }
  intros _. apply raises_only_bind; [by apply raises_only_py_div|].
  intros d. apply raises_only_raise. right. by eexists.
Qed.

Lemma raises_only_get_sleep_time (key : string) (max_rate : Qc) :
  max_rate ≠ 0%Qc →
  raises_only is_max_sleep_hit (_get_sleep_time key max_rate).
Proof.
  intros HR. unfold _get_sleep_time.
  apply (raises_only_try_except _
           (λ e, is_connection_error e ∨ is_max_sleep_hit e)).
  - unfold _get_sleep_time_try. apply raises_only_bind.
    + eapply raises_only_weaken; [|by apply raises_only_reserve_slot].
      intros e He. by left.
    + intros r. apply raises_only_check_max_sleep.
  - intros e [[msg ->]|[seconds ->]].
    + apply raises_only_bind; [apply raises_only_log|].
      intros _. apply raises_only_ret.
    + by eexists.
Qed.

Lemma raises_only_check_bucket (key : string) (max_rate : Qc) :
  max_rate ≠ 0%Qc →
  raises_only (λ _, False) (check_bucket key max_rate).
Proof.
  intros HR. unfold check_bucket.
  apply (raises_only_try_except _ is_max_sleep_hit).
  - apply raises_only_bind; [by apply raises_only_get_sleep_time|].
    intros d. apply raises_only_with_self. intros s _.
    apply raises_only_bind.
    { case_match; [apply raises_only_log|apply raises_only_ret]. }
    intros _. apply raises_only_bind; [|intros _; apply raises_only_ret].
    case_match; [apply raises_only_mock_sleep|apply raises_only_ret].
  - intros e [seconds ->].
    apply raises_only_bind; [apply raises_only_log|].
    intros _. apply raises_only_ret.
Qed.

Lemma raises_only_handle_limits (limits : list (string * Qc)) :
  Forall (λ kr, kr.2 ≠ 0%Qc) limits →
  raises_only (λ _, False) (handle_limits limits).
Proof.
  induction 1 as [|[key max_rate] rest HR _ IH]; cbn [handle_limits].
  - apply raises_only_ret.
  - apply raises_only_bind; [by apply raises_only_check_bucket|].
    intros [resp|]; [apply raises_only_ret|exact IH].
Qed.

Lemma raises_only_handle_ratelimit
    (req : Request) (auth_tok : string) (action : option string) :
  raises_only (λ _, False) (handle_ratelimit req auth_tok action).
Proof.
  intros p Hp.
  destruct (memcache_client (self p)) as [c|] eqn:Hc.
  - destruct (key_tuples_rates req auth_tok action p)
      as (keys & p1 & Hkeys & Hrates & Hself & _).
    assert (handle_ratelimit req auth_tok action p = handle_limits keys p1)
      as ->.
    { unfold handle_ratelimit. unfold bind at 1. unfold get_self at 1.
      rewrite Hc. unfold bind. by rewrite Hkeys. }
    apply raises_only_handle_limits; [done|].
    unfold well_configured. by rewrite Hself.
  - assert (handle_ratelimit req auth_tok action p
            = (inr None, logged p LogErrorClientIsNone)) as ->.
    { unfold handle_ratelimit. unfold bind at 1. unfold get_self at 1.
      by rewrite Hc. }
    split; [done|]. by intros e.
Qed.

Variable mapper_match : environ Fake.FakeMemcache → option string.

Lemma call_returns (env : environ Fake.FakeMemcache)
    (p : process Fake.FakeMemcache) :
  clock_accuracy (self p) ≠ 0 →
  ∃ w, (__call__ mapper_match env p).1 = inr w.
Proof.
  intros Hca. unfold __call__. unfold bind at 1. unfold get_self at 1.
  unfold bind at 1.
  destruct ((match memcache_client (self p) with
             | Some _ => ret ()
             | None => _
             end) p) as [[e|[]] p1] eqn:Hadopt.
  { exfalso. revert Hadopt. destruct (memcache_client (self p)); [done|].
    unfold cache_from_env. by destruct (glance_cache env). }
  assert (clock_accuracy (self p1) = clock_accuracy (self p)) as Hca1.
  { revert Hadopt. destruct (memcache_client (self p)).
    - by intros [= <-].
    - unfold cache_from_env.
      destruct (glance_cache env); cbn; by intros [= <-]. }
  unfold bind at 1. unfold get_self at 1.
  destruct (memcache_client (self p1)) as [c|] eqn:Hc;
    [|unfold bind, log, ret; by eexists].
  destruct (HTTP_X_AUTH_TOKEN env) as [account|];
    [|unfold bind, log, ret; by eexists].
  unfold bind at 1.
  destruct (_ p1) as [[e|[]] p2] eqn:Hdebug.
  { exfalso. revert Hdebug. unfold log, ret. repeat case_match; done. }
  assert (self p2 = self p1) as Hs2.
  { revert Hdebug. unfold log, ret. repeat case_match; by intros [= <-]. }
  assert (well_configured p2) as Hp2.
  { unfold well_configured. rewrite Hs2, Hca1, Hc. split; [done|by eexists]. }
  destruct (raises_only_handle_ratelimit {| method := REQUEST_METHOD env |}
              account (mapper_match env) p2 Hp2) as [_ Hno].
  unfold bind at 1.
  destruct (handle_ratelimit _ account _ p2) as [[e|[resp|]] p3];
    cbn [fst] in Hno.
  - by destruct (Hno e).
  - unfold ret. by eexists.
  - unfold bind, get_self, ret. by eexists.
Qed.


End NeverRaises.

Section ZeroClock.

Lemma round_0 : Py.round 0%Qc = 0.
Proof. by vm_compute. Qed.

Lemma get_sleep_time_zero_clock (key : string) (max_rate : Qc)
    (p : process Fake.FakeMemcache) (m : Fake.FakeMemcache) :
  clock_accuracy (self p) = 0 →
  max_rate ≠ 0%Qc →
  memcache_client (self p) = Some m →
  Fake.error_on_incr m = false →
  (_get_sleep_time key max_rate p).1 = inl ZeroDivisionError.
Proof.
  intros Hca HR Hm He.
  unfold _get_sleep_time, try_except, _get_sleep_time_try. unfold bind at 1.
  destruct (reserve_slot key max_rate p) as [[e|[tpr need]] p1] eqn:Hres.
  { exfalso. revert Hres. unfold reserve_slot.
    unfold bind at 1. unfold get_self at 1. unfold bind at 1.
    destruct (mock_time p) as [r p0] eqn:Ht.
    destruct (mock_time_frame _ _ _ Ht) as ([t ->] & Hself & _).
    unfold bind at 1. unfold py_div. rewrite bool_decide_false by done.
    unfold ret at 1. unfold bind at 1. unfold on_client at 1.
    rewrite Hself, Hm. cbn [incr FakeMemcache_client].
    unfold Fake.incr at 1. rewrite He.
    repeat (case_match; simplify_eq/=; try done). }
  assert (0 ≤ need ∧ clock_accuracy (self p1) = 0
          ∧ ∃ m1, memcache_client (self p1) = Some m1
                  ∧ Fake.error_on_incr m1 = false) as (Hneed & Hca1 & m1 & Hm1 & He1).
  { destruct (reserve_slot_returns _ _ _ _ _ _ Hres) as [Hneed Hself].
    split; [done|]. split; [by rewrite Hself|].
    revert Hres. unfold reserve_slot.
    unfold bind at 1. unfold get_self at 1. unfold bind at 1.
    destruct (mock_time p) as [r p0] eqn:Ht.
    destruct (mock_time_frame _ _ _ Ht) as ([t ->] & Hself0 & _).
    unfold bind at 1. unfold py_div. rewrite bool_decide_false by done.
    unfold ret at 1. unfold bind at 1. unfold on_client at 1.
    rewrite Hself0, Hm. cbn [incr FakeMemcache_client].
    destruct (Fake.incr m key _) as [[e|running] m0] eqn:Hincr; [done|].
    pose proof (fake_incr_flags _ _ _ _ _ Hincr) as Hflag.
    destruct (idle_longer_than_buffer _ _ _).
    - unfold bind, on_client, ret. cbn. intros [= _ _ <-]. cbn.
      eexists. split; [reflexivity|]. cbn. congruence.
    - unfold ret. intros [= _ _ <-]. cbn.
      eexists. split; [reflexivity|]. congruence. }
  cbn [fst snd]. unfold check_max_sleep.
  unfold bind at 1. unfold get_self at 1.
  rewrite (max_sleep_hit_clock_0 (self p1) need Hca1 Hneed).
  unfold bind at 1. unfold on_client at 1. rewrite Hm1.
  cbn [decr FakeMemcache_client]. unfold Fake.decr, Fake.incr. rewrite He1.
  rewrite Hca1, float_0. unfold bind, py_div.
  repeat (case_match; simplify_eq/=; try done).
Qed.

Variable mapper_match : environ Fake.FakeMemcache → option string.

(** X2. With [clock_accuracy] zero, a request with a token and a limitable
    method, under an account rate that is not zero and a [FakeMemcache] whose
    [incr] works, ends in [ZeroDivisionError]: the wait of every such
    request is at the ceiling, and the message of [MaxSleepTimeHitError]
    divides by the clock accuracy. No handler of the middleware catches
    it. *)
Theorem zero_clock_accuracy_crashes (env : environ Fake.FakeMemcache)
    (p : process Fake.FakeMemcache) (m : Fake.FakeMemcache)
    (account : string) :
  clock_accuracy (self p) = 0 →
  memcache_client (self p) = Some m →
  Fake.error_on_incr m = false →
  HTTP_X_AUTH_TOKEN env = Some account →
  REQUEST_METHOD env ∈ limitable_methods →
  account_ratelimit (self p) ≠ 0%Qc →
  (__call__ mapper_match env p).1 = inl ZeroDivisionError.
Proof.
  intros Hca Hm He Htok Hmeth Hrate.
  unfold __call__. unfold bind at 1. unfold get_self at 1. rewrite Hm.
  unfold bind at 1. unfold ret at 1.
  unfold bind at 1. unfold get_self at 1. rewrite Hm, Htok.
  unfold bind at 1.
  destruct (_ p) as [[e|[]] p2] eqn:Hdebug.
  { exfalso. revert Hdebug. unfold log, ret. repeat case_match; done. }
  assert (self p2 = self p) as Hs2.
  { revert Hdebug. unfold log, ret. repeat case_match; by intros [= <-]. }
  unfold bind at 1.
  assert ((handle_ratelimit {| method := REQUEST_METHOD env |} account
             (mapper_match env) p2).1 = inl ZeroDivisionError) as Hcrash.
  { unfold handle_ratelimit. unfold bind at 1. unfold get_self at 1.
    rewrite Hs2, Hm. unfold bind at 1.
    unfold get_ratelimitable_key_tuples.
    unfold bind at 1. unfold get_self at 1. rewrite Hs2. cbn [method].
    rewrite bool_decide_true by done.
    replace (Py.truthy (account_ratelimit (self p))) with true.
    2:{ unfold Py.truthy. by rewrite bool_decide_false. }
    cbn [andb List.app]. unfold bind at 1.
    destruct (try_except _ _ p2) as [[e|limit] p3] eqn:Hlimit.
    { exfalso. revert Hlimit.
      unfold try_except, _get_limit_for_action, bind, get_self.
      repeat case_bool_decide; unfold ret, raise, log; done. }
    assert (self p3 = self p) as Hs3.
    { rewrite <- Hs2. revert Hlimit.
      unfold try_except, _get_limit_for_action, bind, get_self.
      repeat case_bool_decide; unfold ret, raise, log; by intros [= _ <-]. }
    unfold ret.
    assert (∀ rest, (handle_limits
                       ((account_key account, account_ratelimit (self p))
                        :: rest) p3).1 = inl ZeroDivisionError) as Hfirst.
    { intros rest. rewrite handle_limits_cons.
      unfold check_bucket, try_except. unfold bind at 1.
      pose proof (get_sleep_time_zero_clock (account_key account)
                    (account_ratelimit (self p)) p3 m) as Hz.
      rewrite Hs3 in Hz. specialize (Hz Hca Hrate Hm He).
      destruct (_get_sleep_time _ _ p3) as [[e|d] p4]; cbn [fst] in Hz;
        [|done].
      by simplify_eq. }
    destruct (Py.ltb (Py.float 0) limit); apply Hfirst. }
  destruct (handle_ratelimit _ account _ p2) as [[e|r] p3];
    cbn [fst] in Hcrash.
  - by injection Hcrash as ->.
  - done.
Qed.

End ZeroClock.

(** ** The log of a refusal *)

Section RefusalLogged.
Context {C : Type} `{!MemcacheClient C}.

Lemma check_bucket_refusal_logged (key : string) (max_rate : Qc)
    (p p' : process C) (resp : Response) :
  check_bucket key max_rate p = (inr (Some resp), p') →
  refusal_logged_last p' key.
Proof.
  unfold check_bucket, try_except. unfold bind at 1.
  destruct (_get_sleep_time key max_rate p) as [[e|d] p1].
  - destruct e; try done. unfold bind, log, ret. intros [= _ <-].
    by eexists.
  - unfold bind, get_self, log, mock_sleep, ret.
    repeat case_match; simplify_eq/=; done.
Qed.

Lemma handle_limits_refusal_logged (limits : list (string * Qc))
    (p p' : process C) (resp : Response) :
  handle_limits limits p = (inr (Some resp), p') →
  ∃ key, key ∈ limits.*1 ∧ refusal_logged_last p' key.
Proof.
  revert p. induction limits as [|[key max_rate] rest IH]; intros p.
  - done.
  - rewrite handle_limits_cons.
    destruct (check_bucket key max_rate p) as [[e|[r|]] p1] eqn:Hchk; [done|..].
    + intros [= <- <-]. exists key. split; [by constructor|].
      by eapply check_bucket_refusal_logged.
    + intros Hrest. destruct (IH _ Hrest) as (k & Hin & Hlog).
      exists k. split; [by constructor|done].
Qed.

Variable mapper_match : environ C → option string.

(** X9. When a call of the middleware answers with the rate limiter's
    response, the response is the 429 response, the request carried a
    token, and the last record of the log is the warning that names the
    bucket that refused: the account bucket of the token or its bucket for
    the action of the request. *)
Theorem refusal_is_logged (env : environ C) (p p' : process C)
    (resp : Response) :
  __call__ mapper_match env p = (inr (FromRateLimit resp), p') →
  resp = error_resp
  ∧ ∃ account key,
      HTTP_X_AUTH_TOKEN env = Some account
      ∧ (key = account_key account
         ∨ key = action_key account (mapper_match env))
      ∧ refusal_logged_last p' key.
Proof.
  unfold __call__. unfold bind at 1. unfold get_self at 1.
  unfold bind at 1.
  destruct (_ p) as [[e|[]] p1]; [done|].
  unfold bind at 1. unfold get_self at 1.
  destruct (memcache_client (self p1)); [|by unfold bind, log, ret].
  destruct (HTTP_X_AUTH_TOKEN env) as [account|];
    [|by unfold bind, log, ret].
  unfold bind at 1.
  destruct (_ p1) as [[e|[]] p2]; [done|].
  unfold bind at 1.
  destruct (handle_ratelimit _ account _ p2) as [[e|[r|]] p3] eqn:Hh;
    [done| |by unfold bind, get_self, ret].
  unfold ret. intros [= <- <-].
  revert Hh. unfold handle_ratelimit. unfold bind at 1. unfold get_self at 1.
  destruct (memcache_client (self p2)); [|by unfold bind, log, ret].
  unfold bind.
  destruct (get_ratelimitable_key_tuples _ _ _ p2) as [[e|limits] p4] eqn:Hk;
    [done|].
  intros Hl. split; [by eapply handle_limits_response|].
  destruct (handle_limits_refusal_logged _ _ _ _ Hl) as (key & Hin & Hlog).
  exists account, key. split; [done|]. split; [|done].
  pose proof (key_tuples_keys _ _ _ _ _ _ Hk) as Hkeys.
  apply list_elem_of_fmap in Hin as ([k rate] & -> & Hin).
  rewrite Forall_forall in Hkeys. apply (Hkeys (k, rate)).
  by apply list_elem_of_In.
Qed.

End RefusalLogged.

(** ** Property protection rules *)

Section RulesProperties.

Import PropertyRules.

Variable pattern : Type.
Variable search : pattern → string → bool.

Lemma shares_a_role_spec (roles permitted_roles : list string) :
  shares_a_role roles permitted_roles = true
  ↔ ∃ role, role ∈ roles ∧ role ∈ permitted_roles.
Proof.
  unfold shares_a_role. rewrite bool_decide_eq_true. split.
  - intros Hne. apply set_choose_L in Hne as [role Hrole].
    exists role. set_solver.
  - intros (role & H1 & H2). set_solver.
Qed.

Lemma check_rules_unmatched (rs : rules pattern) (property_name action : string)
    (roles : list string) :
  Forall (λ r, search r.1 property_name = false) rs →
  check_rules pattern search rs property_name action roles = (inr false, []).
Proof.
  induction 1 as [|[rule_exp rule] rest Hno _ IH]; [done|].
  cbn in Hno |- *. by rewrite Hno.
Qed.

(** X10. For an action that is not one of create, read, update and delete,
    or a property name that no rule matches, [check_property_rules] answers
    without an exception and without a log record: [True] when there are no
    rules at all, [False] as soon as there is one. *)
Theorem unmatched_property_defaults (rs : rules pattern)
    (property_name action : string) (roles : list string) :
  action ∉ operations
  ∨ Forall (λ r, search r.1 property_name = false) rs →
  check_property_rules pattern search rs property_name action roles =
    (inr match rs with [] => true | _ => false end, []).
Proof.
  intros Hcase. unfold check_property_rules.
  destruct rs as [|r rest]; [done|].
  case_bool_decide as Hop; [|done].
  destruct Hcase as [Hbad|Hno]; [done|].
  by apply check_rules_unmatched.
Qed.

(** X11. When the first rule that matches the property name lists ['@'] or
    ['!'] for the action, that rule decides, whatever the roles of the
    caller and the rules after it: ['@'] alone permits, ['!'] alone denies,
    and both together raise [HTTPInternalServerError] after an error
    record. *)
Theorem first_matching_rule_decides (pre post : rules pattern)
    (rule_exp : pattern) (rule : gmap string (list string))
    (permitted_roles : list string) (property_name action : string)
    (roles : list string) :
  action ∈ operations →
  Forall (λ r, search r.1 property_name = false) pre →
  search rule_exp property_name = true →
  rule !! action = Some permitted_roles →
  "@" ∈ permitted_roles ∨ "!" ∈ permitted_roles →
  check_property_rules pattern search ((pre ++ (rule_exp, rule) :: post)%list)
    property_name action roles =
    if bool_decide ("@" ∈ permitted_roles)
    then if bool_decide ("!" ∈ permitted_roles)
         then (inl (HTTPInternalServerError property_name), [property_name])
         else (inr true, [])
    else (inr false, []).
Proof.
  intros Hop Hpre Hmatch Hrule Hmark.
  assert (check_rules pattern search ((pre ++ (rule_exp, rule) :: post)%list)
            property_name action roles =
          if bool_decide ("@" ∈ permitted_roles)
          then if bool_decide ("!" ∈ permitted_roles)
               then (inl (HTTPInternalServerError property_name),
                     [property_name])
               else (inr true, [])
          else (inr false, [])) as Hloop.
  { induction Hpre as [|[pat r] pre' Hno _ IH]; cbn.
    - rewrite Hmatch, Hrule.
      repeat case_bool_decide; cbn; try done. by destruct Hmark.
    - cbn in Hno. by rewrite Hno. }
  unfold check_property_rules. rewrite bool_decide_true by done.
  by destruct pre.
Qed.

(** X12. Permission is monotone in the roles: a caller that holds every
    role of a permitted caller is permitted as well. *)
Theorem more_roles_keep_access (rs : rules pattern)
    (property_name action : string) (roles roles' : list string)
    (logged : list string) :
  (∀ role, role ∈ roles → role ∈ roles') →
  check_property_rules pattern search rs property_name action roles
    = (inr true, logged) →
  check_property_rules pattern search rs property_name action roles'
    = (inr true, logged).
Proof.
  intros Hsub. unfold check_property_rules.
  destruct rs as [|r0 rest0]; [done|].
  case_bool_decide; [|done].
  generalize (r0 :: rest0). clear r0 rest0.
  intros rs. induction rs as [|[rule_exp rule] rest IH]; [done|]. cbn.
  destruct (search rule_exp property_name); [|exact IH].
  destruct (rule !! action) as [permitted_roles|]; [|done].
  repeat (case_bool_decide; cbn; try done).
  destruct (shares_a_role roles permitted_roles) eqn:Hr.
  - apply shares_a_role_spec in Hr as (role & Hrole & Hperm).
    rewrite (proj2 (shares_a_role_spec roles' permitted_roles)); [done|].
    exists role. auto.
  - destruct (shares_a_role roles' permitted_roles); [|exact IH].
    intros Hrest. specialize (IH Hrest).
    revert Hrest. clear. revert logged.
    induction rest as [|[pat r] rest IH']; [done|]. cbn.
    repeat (case_match; try done); try (by intros ? [= <-]); eauto.
Qed.

(** X13. When there are rules, a permission comes from a rule: some rule
    matches the property name and, for the action, does not list ['!'] and
    lists ['@'] or a role of the caller. *)
Theorem access_needs_permitting_rule (rs : rules pattern)
    (property_name action : string) (roles : list string)
    (logged : list string) :
  rs ≠ [] →
  check_property_rules pattern search rs property_name action roles
    = (inr true, logged) →
  ∃ rule_exp rule permitted_roles,
    ((rule_exp, rule) ∈ rs)
    ∧ search rule_exp property_name = true
    ∧ rule !! action = Some permitted_roles
    ∧ ("!" ∉ permitted_roles)
    ∧ ("@" ∈ permitted_roles
       ∨ ∃ role, role ∈ roles ∧ role ∈ permitted_roles).
Proof.
  intros Hne. unfold check_property_rules.
  destruct rs as [|r0 rest0]; [done|]. clear Hne.
  case_bool_decide; [|done].
  generalize (r0 :: rest0). clear r0 rest0.
  intros rs. induction rs as [|[rule_exp rule] rest IH]; [done|]. cbn.
  assert (check_rules pattern search rest property_name action roles
            = (inr true, logged) →
          ∃ rule_exp0 rule0 permitted_roles,
            ((rule_exp0, rule0) ∈ (rule_exp, rule) :: rest)
            ∧ search rule_exp0 property_name = true
            ∧ rule0 !! action = Some permitted_roles
            ∧ ("!" ∉ permitted_roles)
            ∧ ("@" ∈ permitted_roles
               ∨ ∃ role, role ∈ roles ∧ role ∈ permitted_roles)) as Hrest.
  { intros Hr. destruct (IH Hr) as (pat & r & perm & Hin & Hrestprops).
    exists pat, r, perm. split; [by constructor|done]. }
  destruct (search rule_exp property_name) eqn:Hs; [|exact Hrest].
  destruct (rule !! action) as [permitted_roles|] eqn:Hrule; [|done].
  destruct (bool_decide ("@" ∈ permitted_roles)) eqn:Hat;
    destruct (bool_decide ("!" ∈ permitted_roles)) eqn:Hbang; cbn; try done.
  - intros _. exists rule_exp, rule, permitted_roles.
    split; [by constructor|]. repeat split; try done.
    + by apply bool_decide_eq_false in Hbang.
    + left. by apply bool_decide_eq_true in Hat.
  - destruct (shares_a_role roles permitted_roles) eqn:Hr; [|exact Hrest].
    intros _. exists rule_exp, rule, permitted_roles.
    split; [by constructor|]. repeat split; try done.
    + by apply bool_decide_eq_false in Hbang.
    + right. by apply shares_a_role_spec.
Qed.

End RulesProperties.

(** ** The further properties at work *)


Lemma zero_clock_accuracy_crashes_witness :
  (__call__ list_route (token_environ "GET") zero_clock_process).1
    = inl ZeroDivisionError.
Proof.
  apply (zero_clock_accuracy_crashes list_route (token_environ "GET")
           zero_clock_process Fake.init tok).
  - reflexivity.
  - reflexivity.
  - reflexivity.
  - reflexivity.
  - apply (bool_decide_unpack _). vm_compute. exact I.
  - vm_compute. discriminate.
Defined.

Lemma call_delay_is_bounded_witness :
  let p' := (__call__ list_route (token_environ "GET") busy_process).2 in
  self p' = set_memcache_client (self busy_process) (memcache_client (self p'))
  ∧ (time_ticker busy_process ≤ time_ticker p')%Qc
  ∧ (time_ticker p'
     ≤ time_ticker busy_process
       + Py.float 2 * max_sleep_time_seconds (self busy_process))%Qc.
Proof.
  apply (call_delay_is_bounded list_route (token_environ "GET") busy_process).
  - vm_compute. discriminate.
  - vm_compute. discriminate.
Defined.

Lemma nothing_limited_no_store_access_witness :
  ∃ p', handle_ratelimit put_request tok (Some "image_upload")
          unlimited_process = (inr None, p')
        ∧ self p' = self unlimited_process
        ∧ time_ticker p' = time_ticker unlimited_process
        ∧ time_override p' = time_override unlimited_process.
Proof.
  apply (nothing_limited_no_store_access put_request tok
           (Some "image_upload") unlimited_process).
  split; [apply Qc_is_canon; reflexivity|].
  repeat split; vm_compute; discriminate.
Defined.

Lemma no_client_no_limiting_witness :
  __call__ list_route (token_environ "GET") new_process =
    (inr (FromApp (app (self new_process) (token_environ "GET"))),
     logged (logged new_process (LogErrorNotInEnv "glance.cache"))
       LogWarningNoClient).
Proof.
  apply (no_client_no_limiting list_route (token_environ "GET") new_process).
  - reflexivity.
  - reflexivity.
Defined.

Lemma other_buckets_untouched_witness :
  bucket_value
    (handle_ratelimit put_request "other" (Some "image_list")
       two_bucket_process).2 tok_key
  = bucket_value two_bucket_process tok_key.
Proof.
  apply (proj2 (other_buckets_untouched put_request "other"
                  (Some "image_list") two_bucket_process) tok).
  - vm_compute. discriminate.
  - vm_compute. discriminate.
Defined.

Lemma fake_incr_decr_round_trip_witness :
  let m := fake_with [(tok_key, 400)] in
  let m1 := (Fake.incr m tok_key 200).2 in
  (Fake.incr m tok_key 200).1 = inr (Fake.value m tok_key + 200)
  ∧ (Fake.decr m1 tok_key 200).1 = inr (Fake.value m tok_key)
  ∧ ∀ k, Fake.value (Fake.decr m1 tok_key 200).2 k = Fake.value m k.
Proof.
  apply (fake_incr_decr_round_trip (fake_with [(tok_key, 400)]) tok_key 200).
  - reflexivity.
  - reflexivity.
  - vm_compute. discriminate.
  - lia.
Defined.


Lemma refusal_is_logged_witness :
  error_resp = error_resp
  ∧ ∃ account key,
      HTTP_X_AUTH_TOKEN (token_environ "PUT") = Some account
      ∧ (key = account_key account
         ∨ key = action_key account (list_route (token_environ "PUT")))
      ∧ refusal_logged_last
          (__call__ list_route (token_environ "PUT") two_bucket_process).2 key.
Proof.
  apply (refusal_is_logged list_route (token_environ "PUT") two_bucket_process
           (__call__ list_route (token_environ "PUT") two_bucket_process).2
           error_resp).
  vm_compute. reflexivity.
Defined.

Lemma unmatched_property_defaults_witness :
  PropertyRules.check_property_rules (string → bool) PropertyRules.matching
    PropertyRules.example_rules "x_owner" "list" ["member"]
  = (inr false, []).
Proof.
  apply (unmatched_property_defaults (string → bool) PropertyRules.matching
           PropertyRules.example_rules "x_owner" "list" ["member"]).
  left. apply (bool_decide_unpack _). vm_compute. exact I.
Defined.

Lemma first_matching_rule_decides_witness :
  PropertyRules.check_property_rules (string → bool) PropertyRules.matching
    PropertyRules.example_rules "x_owner" "read" []
  = (inr true, []).
Proof.
  apply (first_matching_rule_decides (string → bool) PropertyRules.matching
           [] (drop 1 PropertyRules.example_rules) (String.prefix "x_")
           {[ "create" := ["member"]; "read" := ["@"]; "update" := ["member"];
              "delete" := ["member"] ]}
           ["@"] "x_owner" "read" []).
  - apply (bool_decide_unpack _). vm_compute. exact I.
  - apply Forall_nil.
  - reflexivity.
  - vm_compute. reflexivity.
  - left. apply (bool_decide_unpack _). vm_compute. exact I.
Defined.

Lemma more_roles_keep_access_witness :
  PropertyRules.check_property_rules (string → bool) PropertyRules.matching
    PropertyRules.example_rules "x_owner" "update" ["operator"; "member"]
  = (inr true, []).
Proof.
  apply (more_roles_keep_access (string → bool) PropertyRules.matching
           PropertyRules.example_rules "x_owner" "update" ["member"]
           ["operator"; "member"] []).
  - intros role Hrole. apply list_elem_of_singleton in Hrole as ->.
    apply (bool_decide_unpack _). vm_compute. exact I.
  - vm_compute. reflexivity.
Defined.

Lemma access_needs_permitting_rule_witness :
  ∃ rule_exp rule permitted_roles,
    ((rule_exp, rule) ∈ PropertyRules.example_rules)
    ∧ PropertyRules.matching rule_exp "owner" = true
    ∧ rule !! "read" = Some permitted_roles
    ∧ ("!" ∉ permitted_roles)
    ∧ ("@" ∈ permitted_roles
       ∨ ∃ role, role ∈ ["operator"] ∧ role ∈ permitted_roles).
Proof.
  apply (access_needs_permitting_rule (string → bool) PropertyRules.matching
           PropertyRules.example_rules "owner" "read" ["operator"] []).
  - discriminate.
  - vm_compute. reflexivity.
Defined.
